(** * Mixpanel People: the profile-mutation dispatcher of [src/people.js]

    A shallow embedding of [MixpanelPeople] (encoders [set], [set_once],
    [unset], [increment], [append], [union], [track_charge], [delete_user],
    the dispatcher [_send_request] and the flush coordinator [_flush]) over
    a small model of JavaScript values, followed by the properties the
    specification states about them. *)

From Stdlib Require Import String Ascii List ZArith NArith Bool Lia.
From Stdlib Require Import SpecFloat DecimalString.
Import ListNotations.
Set Warnings "-register-all".
Local Open Scope string_scope.
Local Open Scope list_scope.

(** ** JavaScript values *)

Module JS.

(** A JavaScript number is an IEEE 754 binary64: zeros and infinities with
    their sign, NaN, and finite values [(-1)^s * m * 2^e]. *)
Definition number := spec_float.

Definition prec : Z := 53.
Definition emax : Z := 1024.

Definition number_of_Z (z : Z) : number := binary_normalize prec emax z 0 false.

Definition isNaN (n : number) : bool :=
  match n with S754_nan => true | _ => false end.

(** Values.  A [VDate] stands for a [Date] object and carries the text
    [_.formatDate] prints for it.  An object is the list of its own
    enumerable properties in enumeration order.  A function value is either
    a function of the caller, known by an identifier only, or one of the
    closures the library itself builds, kept with the variables it
    captured. *)
Inductive value : Type :=
| VUndefined
| VNull
| VBool (b : bool)
| VNum (n : number)
| VStr (s : string)
| VDate (formatted : string)
| VArr (items : list value)
| VObj (props : list (string * value))
| VFun (f : closure)
with closure : Type :=
| CUser (id : nat)
| CPrepared (callback : value) (data : value)
| CFlushOne (action : string) (queued_data : value) (callback : value)
| CFlushAppend (cell : nat) (_append_callback : value).

Definition object := list (string * value).

(** *** Property lists *)

Fixpoint lookup (k : string) (o : object) : option value :=
  match o with
  | [] => None
  | (k', v) :: o' => if String.eqb k k' then Some v else lookup k o'
  end.

(** [k in obj] *)
Definition has_key (k : string) (o : object) : bool :=
  match lookup k o with Some _ => true | None => false end.

(** [obj[k] = v]: an existing property keeps its place, a new one goes
    last.  (JavaScript enumerates the keys that are array indices before
    the others; here they stay where they were written, like the rest.) *)
Fixpoint obj_set (o : object) (k : string) (v : value) : object :=
  match o with
  | [] => [(k, v)]
  | (k', v') :: o' =>
      if String.eqb k k' then (k', v) :: o' else (k', v') :: obj_set o' k v
  end.

Definition string_of_nat (n : nat) : string :=
  NilZero.string_of_uint (Nat.to_uint n).

Fixpoint indexed {A : Type} (i : nat) (l : list A) : list (string * A) :=
  match l with
  | [] => []
  | x :: l' => (string_of_nat i, x) :: indexed (S i) l'
  end.

Fixpoint chars (s : string) : list value :=
  match s with
  | EmptyString => []
  | String c s' => VStr (String c EmptyString) :: chars s'
  end.

(** The own enumerable properties a [for (k in v)] loop visits. *)
Definition own_properties (v : value) : object :=
  match v with
  | VObj o => o
  | VArr l => indexed 0 l
  | VStr s => indexed 0 (chars s)
  | _ => []
  end.

(** *** [parseFloat] *)

Definition is_digit (c : ascii) : bool :=
  let n := nat_of_ascii c in (48 <=? n)%nat && (n <=? 57)%nat.

Definition digit_value (c : ascii) : N := N_of_ascii c - 48.

(** White space and line terminators among the first 256 code units. *)
Definition is_white_space (c : ascii) : bool :=
  let n := nat_of_ascii c in
  ((9 <=? n)%nat && (n <=? 13)%nat) || (n =? 32)%nat || (n =? 160)%nat.

Fixpoint trim_start (s : string) : string :=
  match s with
  | String c s' => if is_white_space c then trim_start s' else s
  | EmptyString => s
  end.

(** Leading decimal digits of [s] and what follows them. *)
Fixpoint take_digits (s : string) : string * string :=
  match s with
  | String c s' =>
      if is_digit c
      then let (ds, rest) := take_digits s' in (String c ds, rest)
      else (EmptyString, s)
  | EmptyString => (EmptyString, EmptyString)
  end.

Fixpoint digits_value (acc : N) (ds : string) : N :=
  match ds with
  | EmptyString => acc
  | String c ds' => digits_value (10 * acc + digit_value c) ds'
  end.

Definition take_sign (s : string) : bool * string :=
  match s with
  | String "-" s' => (true, s')
  | String "+" s' => (false, s')
  | _ => (false, s)
  end.

Definition is_empty (s : string) : bool :=
  match s with EmptyString => true | _ => false end.

Inductive decimal_literal :=
| LitInfinity (sign : bool)
| LitDecimal (sign : bool) (mantissa : N) (exp10 : Z).

Definition exponent_part (s : string) : Z :=
  match s with
  | String c s' =>
      if Ascii.eqb c "e" || Ascii.eqb c "E"
      then
        let (neg, s1) := take_sign s' in
        let (ds, _) := take_digits s1 in
        if is_empty ds then 0%Z
        else
          let e := Z.of_N (digits_value 0 ds) in
          if neg then (- e)%Z else e
      else 0%Z
  | EmptyString => 0%Z
  end.

(** The longest prefix of [s] that is a [StrDecimalLiteral], if any. *)
Definition str_decimal_literal (s : string) : option decimal_literal :=
  let (sign, s1) := take_sign s in
  if String.prefix "Infinity" s1 then Some (LitInfinity sign)
  else
    let (int_digits, s2) := take_digits s1 in
    let (frac_digits, s3) :=
      match s2 with
      | String "." s' => take_digits s'
      | _ => (EmptyString, s2)
      end in
    if is_empty int_digits && is_empty frac_digits then None
    else
      Some (LitDecimal sign
              (digits_value 0 (int_digits ++ frac_digits))
              (exponent_part s3 - Z.of_nat (String.length frac_digits))).

(** The binary64 nearest to [(-1)^sign * m * 10^e], ties to even. *)
Definition binary64_of_decimal (sign : bool) (m : N) (e : Z) : number :=
  match m with
  | N0 => S754_zero sign
  | Npos p =>
      match e with
      | Zneg k =>
          SFdiv prec emax (S754_finite sign p 0)
                (S754_finite false (Pos.pow 10 k) 0)
      | _ =>
          binary_normalize prec emax
            (cond_Zopp sign (Zpos p * 10 ^ e)) 0 sign
      end
  end.

Definition parseFloat_string (s : string) : number :=
  match str_decimal_literal (trim_start s) with
  | None => S754_nan
  | Some (LitInfinity sign) => S754_infinity sign
  | Some (LitDecimal sign m e) => binary64_of_decimal sign m e
  end.

(** [parseFloat(v)] reads a decimal literal at the start of [ToString(v)].
    A number prints to the shortest text that reads back as itself (minus
    zero prints as "0"); an array prints its items separated by commas, so
    only its first item can be read; the texts of the other values start
    with no literal. *)
Fixpoint parseFloat (v : value) : number :=
  match v with
  | VStr s => parseFloat_string s
  | VNum (S754_zero _) => S754_zero false
  | VNum n => n
  | VArr (x :: _) => parseFloat x
  | _ => S754_nan
  end.

End JS.

(** ** The helpers of [utils.js] and the constants of [actions.js] *)

Module Utils.
Import JS.

(** Modelled from the spec: the Action Kind keys exported by [./actions],
    which is not under src/: six distinct keys, one per mutation verb. *)
Definition SET_ACTION := "$set".
Definition SET_ONCE_ACTION := "$set_once".
Definition UNSET_ACTION := "$unset".
Definition ADD_ACTION := "$add".
Definition APPEND_ACTION := "$append".
Definition UNION_ACTION := "$union".

(** Modelled from the spec: [_.isUndefined] of [./utils], which is not
    under src/. *)
Definition isUndefined (v : value) : bool :=
  match v with VUndefined => true | _ => false end.

(** Modelled from the spec: [_.isArray] of [./utils]. *)
Definition isArray (v : value) : bool :=
  match v with VArr _ => true | _ => false end.

(** Modelled from the spec: [_.isNumber] of [./utils]. *)
Definition isNumber (v : value) : bool :=
  match v with VNum _ => true | _ => false end.

(** Modelled from the spec: [_.isObject] of [./utils], which holds of every
    object that is not an array: a map, and a date or a function too. *)
Definition isObject (v : value) : bool :=
  match v with VObj _ | VDate _ | VFun _ => true | _ => false end.

(** Modelled from the spec: [_.isEmptyObject] of [./utils]: an object with
    no own property. *)
Definition isEmptyObject (v : value) : bool :=
  isObject v && match own_properties v with [] => true | _ => false end.

(** Modelled from the spec: [_.extend(target, source, ...)] of [./utils]
    copies the own properties of each source onto the target, in order, a
    later source overwriting an earlier one, and returns the target. *)
Definition extend (target : object) (sources : list value) : object :=
  fold_left
    (fun acc source =>
       fold_left (fun acc' kv => obj_set acc' (fst kv) (snd kv))
                 (own_properties source) acc)
    sources target.

(** Modelled from the spec: [_.keys(obj)] of [./utils], the bare name
    sequence of a payload. *)
Definition keys (v : value) : value :=
  if isObject v then VArr (map (fun kv => VStr (fst kv)) (own_properties v))
  else VArr [].

(** Modelled from the spec: [_.encodeDates] of [./utils] replaces every date
    in a payload by its text; it writes into the payload it is given and
    returns it. *)
Fixpoint encodeDates (v : value) : value :=
  match v with
  | VDate text => VStr text
  | VArr l => VArr (map encodeDates l)
  | VObj o =>
      VObj (map (fun kv : string * value =>
                  let (k, x) := kv in (k, encodeDates x)) o)
  | _ => v
  end.

(** Modelled from the spec: [_.truncate(obj, length)] of [./utils], the
    truncation policy: every string of the payload is clipped to its first
    [length] units, whatever is not a string, an array or an object is left
    as it is. *)
Fixpoint truncate (obj : value) (length : nat) : value :=
  match obj with
  | VStr s => VStr (substring 0 length s)
  | VArr l => VArr (map (fun x => truncate x length) l)
  | VObj o =>
      VObj (map (fun kv : string * value =>
                  let (k, x) := kv in (k, truncate x length)) o)
  | _ => obj
  end.

Definition index_number (i : nat) : value := VNum (number_of_Z (Z.of_nat i)).

(** Modelled from the spec: [_.each(obj, iterator)] of [./utils] calls
    [iterator(value, key)] for each own property of an object and
    [iterator(item, index)] for each item of an array or unit of a string,
    in order.  [each_entries] lists these pairs of arguments. *)
Definition each_entries (obj : value) : list (value * value) :=
  match obj with
  | VArr l => combine l (map index_number (seq 0 (length l)))
  | VStr s => combine (chars s) (map index_number (seq 0 (String.length s)))
  | _ => map (fun kv : string * value => (snd kv, VStr (fst kv)))
             (own_properties obj)
  end.

(** [_.each] with an iterator that only updates local variables, [s]. *)
Definition each {S : Type} (obj : value) (iterator : value -> value -> S -> S)
    (s : S) : S :=
  fold_left (fun acc e => iterator (fst e) (snd e) acc) (each_entries obj) s.

(** The codecs are external: a text is known by the value it encodes. *)
Inductive json_text := JSONEncode (v : value).
Inductive base64_text := base64Encode (j : json_text).

End Utils.

(** ** The instance, its collaborators and the effects of a call *)

Module People.
Import JS Utils.

(** What a call does to the outside: the calls it makes to the console, to
    the Pending Mutation Store, to the transport and to functions of the
    caller, in the order they are made. *)
Inductive event : Type :=
| ConsoleError (args : list value)
| ConsoleLog (args : list value)
| AddToPeopleQueue (queue : string) (data : value)
| PopFromPeopleQueue (queue : string) (data : value)
| UpdateReferrerInfo (referrer : string)
| Save
| SendRequest (url : string) (data : base64_text) (callback : value)
| Called (id : nat) (args : list value).

(** A request the transport holds until its outcome is known. *)
Record request : Type := mkRequest {
  req_url : string;
  req_data : base64_text;          (* the [{'data': encoded_data}] argument *)
  req_callback : value }.

(** [_mixpanel['persistence']]: the queue of each Action Kind under its key,
    and the referrer information. *)
Record store : Type := mkStore {
  people_queue : object;
  referrer_info : value }.

Record config : Type := mkConfig {
  token : string;
  verbose : bool;
  api_host : string;
  save_referrer : bool }.

(** The instance [this._mixpanel] and what surrounds it.  [cells] holds the
    local variables that closures capture and a later assignment changes
    ([$append_item] of [_flush]), one cell for each activation. *)
Record world : Type := mkWorld {
  identify_called : bool;          (* [_flags.identify_called === true] *)
  get_config : config;
  distinct_id : string;
  people_properties : value;       (* [_.info.people_properties()] *)
  document_referrer : string;
  persistence : store;
  pending : list request;
  cells : list value;
  trace : list event }.

Definition set_persistence (s : store) (w : world) : world :=
  mkWorld (identify_called w) (get_config w) (distinct_id w)
          (people_properties w) (document_referrer w) s (pending w) (cells w)
          (trace w).

Definition set_pending (p : list request) (w : world) : world :=
  mkWorld (identify_called w) (get_config w) (distinct_id w)
          (people_properties w) (document_referrer w) (persistence w) p
          (cells w) (trace w).

Definition set_cells (c : list value) (w : world) : world :=
  mkWorld (identify_called w) (get_config w) (distinct_id w)
          (people_properties w) (document_referrer w) (persistence w)
          (pending w) c (trace w).

Definition log (e : event) (w : world) : world :=
  mkWorld (identify_called w) (get_config w) (distinct_id w)
          (people_properties w) (document_referrer w) (persistence w)
          (pending w) (cells w) (trace w ++ [e]).

Definition set_queue (queue : string) (q : value) (s : store) : store :=
  mkStore (obj_set (people_queue s) queue q) (referrer_info s).

(** *** State and exceptions *)

Inductive exn : Type := TypeError.

Inductive outcome (A : Type) : Type :=
| Ok (a : A)
| Throw (e : exn).
Arguments Ok {A} a.
Arguments Throw {A} e.

Definition M (A : Type) : Type := world -> outcome A * world.

Definition ret {A : Type} (a : A) : M A := fun w => (Ok a, w).

Definition throw {A : Type} (e : exn) : M A := fun w => (Throw e, w).

Definition bind {A B : Type} (m : M A) (k : A -> M B) : M B :=
  fun w =>
    match m w with
    | (Ok a, w') => k a w'
    | (Throw e, w') => (Throw e, w')
    end.

Notation "x <- m ;; k" := (bind m (fun x => k))
  (at level 61, m at next level, right associativity).
Notation "m ;; k" := (bind m (fun _ => k))
  (at level 61, right associativity).

Definition read {A : Type} (f : world -> A) : M A := fun w => (Ok (f w), w).

Definition modify (f : world -> world) : M unit := fun w => (Ok tt, f w).

(** *** What is outside the repository

    The text [ToString] prints for a value that is not a string (numbers,
    dates and functions print as the engine decides), and what the store
    does with what it is handed, are not fixed here: everything below holds
    for each choice of them. *)
Record Host : Type := mkHost {
  ToString : value -> string;
  add_policy : string -> value -> store -> store;
  pop_policy : string -> value -> store -> store;
  referrer_policy : string -> store -> store }.

(** *** A sample host and session *)

Definition sample_ToString (v : value) : string :=
  match v with
  | VUndefined => "undefined"
  | VNull => "null"
  | VBool true => "true"
  | VBool false => "false"
  | VStr s => s
  | VObj _ => "[object Object]"
  | VNum S754_nan => "NaN"
  | VNum (S754_zero _) => "0"
  | VNum (S754_infinity false) => "Infinity"
  | VNum (S754_infinity true) => "-Infinity"
  | _ => ""
  end.

Definition queue_of (queue : string) (s : store) : value :=
  match lookup queue (people_queue s) with
  | Some q => q
  | None => VUndefined
  end.

(** The payload of an entry: what it holds under the Action Kind when it is
    keyed by it, else the entry itself. *)
Definition payload_of (queue : string) (data : value) : object :=
  match lookup queue (own_properties data) with
  | Some payload =>
      match payload with
      | VArr names =>
          flat_map (fun name =>
                      match name with
                      | VStr k => [(k, VBool true)]
                      | _ => []
                      end) names
      | _ => own_properties payload
      end
  | None => own_properties data
  end.

(** Modelled from the spec: a store after the data model of the spec.  The
    queue of an Action Kind other than APPEND is one merged payload, a later
    entry overwriting an earlier one key by key; the APPEND queue is the
    list of the payloads handed, in order; removal takes the keys of the
    handed payload out of the queue. *)
Definition sample_add (queue : string) (data : value) (s : store) : store :=
  if String.eqb queue "$append" then
    let items := match queue_of queue s with VArr l => l | _ => [] end in
    set_queue queue (VArr (items ++ [VObj (payload_of queue data)])) s
  else
    set_queue queue
      (VObj (fold_left (fun acc kv => obj_set acc (fst kv) (snd kv))
                       (payload_of queue data)
                       (own_properties (queue_of queue s))))
      s.

(** Modelled from the spec: removal from the same store. *)
Definition sample_pop (queue : string) (data : value) (s : store) : store :=
  match queue_of queue s with
  | VObj o =>
      set_queue queue
        (VObj (filter (fun kv : string * value =>
                         negb (has_key (fst kv) (own_properties data))) o))
        s
  | _ => s
  end.

Definition sample_host : Host :=
  mkHost sample_ToString sample_add sample_pop (fun _ s => s).

Definition sample_config (verbose_mode : bool) : config :=
  mkConfig "T0K3N" verbose_mode "https://api.example" false.

(** A session with the given identity flag and queues, nothing sent yet. *)
Definition session (identified verbose_mode : bool) (queues : object)
  : world :=
  mkWorld identified (sample_config verbose_mode) "user-1"
          (VObj [("$os", VStr "Linux")]) ""
          (mkStore queues (VObj [])) [] [] [].

Definition five : value := VNum (number_of_Z 5).
Definition fifty : value := VNum (number_of_Z 50).

Definition zero : value := VNum (number_of_Z 0).

(** A session with identity resolved and two entries in the APPEND queue,
    [{log: 'a'}] queued first. *)
Definition append_session : world :=
  session true false
    [("$append", VArr [VObj [("log", VStr "a")]; VObj [("log", VStr "b")]])].

(** The request [append] sends for the item [{log: text}]. *)
Definition log_request (text : string) : base64_text :=
  base64Encode
    (JSONEncode
       (VObj [("$append", VObj [("log", VStr text)]);
              ("$token", VStr "T0K3N"); ("$distinct_id", VStr "user-1")])).

(** A text of 256 units. *)
Definition long_text : string :=
  string_of_list_ascii (repeat "a"%char 256).

Section Instance.

Variable host : Host.

(** [obj[k]] with a key [k] of any type *)
Definition ToPropertyKey (k : value) : string :=
  match k with
  | VStr s => s
  | _ => ToString host k
  end.

(** [console.error(...)] and [console.log(...)], the diagnostic channel. *)
Definition console_error (args : list value) : M unit :=
  modify (log (ConsoleError args)).

Definition console_log (args : list value) : M unit :=
  modify (log (ConsoleLog args)).

(** Modelled from the spec: [_add_to_people_queue], the [enqueue] of the
    Pending Mutation Store ([_mixpanel['persistence']], not under src/).
    The call is recorded; how the store merges the entry is the host's. *)
Definition _add_to_people_queue (queue : string) (data : value) : M unit :=
  modify (fun w =>
    log (AddToPeopleQueue queue data)
        (set_persistence (add_policy host queue data (persistence w)) w)).

(** Modelled from the spec: [_pop_from_people_queue], the [removeFromQueue]
    of the store, which takes the value that was read. *)
Definition _pop_from_people_queue (queue : string) (data : value) : M unit :=
  modify (fun w =>
    log (PopFromPeopleQueue queue data)
        (set_persistence (pop_policy host queue data (persistence w)) w)).

(** Modelled from the spec: [_get_queue], the [currentQueueFor] of the
    store: the queue of the Action Kind, or nothing. *)
Definition _get_queue (queue : string) : M value :=
  read (fun w =>
    match lookup queue (people_queue (persistence w)) with
    | Some q => q
    | None => VUndefined
    end).

(** Modelled from the spec: [save], the [persist] of the store. *)
Definition save : M unit := modify (log Save).

(** Modelled from the spec: [update_referrer_info] and [get_referrer_info]
    of the store, which the specification leaves to it. *)
Definition update_referrer_info (referrer : string) : M unit :=
  modify (fun w =>
    log (UpdateReferrerInfo referrer)
        (set_persistence (referrer_policy host referrer (persistence w)) w)).

Definition get_referrer_info : M value :=
  read (fun w => referrer_info (persistence w)).

(** Modelled from the spec: [_mixpanel.get_distinct_id()], the Profile
    Identifier, an opaque string. *)
Definition get_distinct_id : M string := read distinct_id.

(** Modelled from the spec: the transport [_mixpanel._send_request(url,
    data, callback)], not under src/: it takes the request and returns; the
    outcome comes later, see [transport_respond]. *)
Definition mixpanel_send_request (url : string) (data : base64_text)
    (callback : value) : M unit :=
  modify (fun w =>
    log (SendRequest url data callback)
        (set_pending (pending w ++ [mkRequest url data callback]) w)).

(** Modelled from the spec: [_mixpanel._prepare_callback(callback, data)],
    not under src/: nothing when no continuation was given, else a function
    that forwards the transport's result, unchanged, with [data]. *)
Definition _prepare_callback (callback data : value) : value :=
  if isUndefined callback then VNull else VFun (CPrepared callback data).

(** *** Calling a function value *)

Definition arg (i : nat) (args : list value) : value := nth i args VUndefined.

(** [response === 0] *)
Definition is_zero (response : value) : bool :=
  match response with
  | VNum (S754_zero _) => true
  | _ => false
  end.

Definition read_cell (c : nat) : M value :=
  read (fun w => nth c (cells w) VUndefined).

Definition write_cell (c : nat) (v : value) : M unit :=
  modify (fun w =>
    set_cells (firstn c (cells w) ++ v :: skipn (S c) (cells w)) w).

Definition new_cell : M nat :=
  fun w => (Ok (length (cells w)), set_cells (cells w ++ [VUndefined]) w).

(** The continuation [_flush_one_queue] passes to the action method
    (people.js, lines 408-416); [call_callback] calls its [callback]. *)
Definition flush_one_queue_continuation
    (call_callback : list value -> M value)
    (action : string) (queued_data callback : value)
    (response data : value) : M value :=
  (* on bad response, we want to add it back to the queue *)
  (if is_zero response
   then _add_to_people_queue action queued_data
   else ret tt) ;;
  (if negb (isUndefined callback)
   then call_callback [response; data]
   else ret VUndefined) ;;
  ret VUndefined.

(** The [callback] of [_flush] (people.js, lines 438-445): [$append_item] is
    the variable of the enclosing activation, read when the function runs. *)
Definition flush_append_continuation
    (call_callback : list value -> M value)
    (cell : nat) (_append_callback : value)
    (response data : value) : M value :=
  (if is_zero response
   then _append_item <- read_cell cell ;;
        _add_to_people_queue APPEND_ACTION _append_item
   else ret tt) ;;
  (if negb (isUndefined _append_callback)
   then call_callback [response; data]
   else ret VUndefined) ;;
  ret VUndefined.

(** [f(args...)].  A function of the caller is recorded as called; it is
    taken to return without calling back into the library.  Calling what is
    not a function throws. *)
Fixpoint call (f : value) (args : list value) {struct f} : M value :=
  match f with
  | VFun (CUser id) =>
      modify (log (Called id args)) ;; ret VUndefined
  | VFun (CPrepared callback data) =>
      call callback [arg 0 args; data]
  | VFun (CFlushOne action queued_data callback) =>
      flush_one_queue_continuation (call callback) action queued_data callback
        (arg 0 args) (arg 1 args)
  | VFun (CFlushAppend cell _append_callback) =>
      flush_append_continuation (call _append_callback) cell _append_callback
        (arg 0 args) (arg 1 args)
  | _ => throw TypeError
  end.

(** Modelled from the spec: the transport reports the outcome of the [n]th
    request it holds to the continuation it was given, if any. *)
Definition transport_respond (n : nat) (response : value) : M value :=
  reqs <- read pending ;;
  match nth_error reqs n with
  | None => ret VUndefined
  | Some r =>
      modify (set_pending (firstn n reqs ++ skipn (S n) reqs)) ;;
      match req_callback r with
      | VNull => ret VUndefined
      | callback => call callback [response]
      end
  end.

(** [_.each] with an iterator that has effects. *)
Fixpoint each_entries_M {S : Type} (entries : list (value * value))
    (iterator : value -> value -> S -> M S) (s : S) : M S :=
  match entries with
  | [] => ret s
  | e :: entries' =>
      s' <- iterator (fst e) (snd e) s ;;
      each_entries_M entries' iterator s'
  end.

Definition each_M {S : Type} (obj : value)
    (iterator : value -> value -> S -> M S) (s : S) : M S :=
  each_entries_M (each_entries obj) iterator s.

(** Modelled from the spec: [addOptOutCheckMixpanelPeople] of
    [./gdpr-utils], not under src/: opt-out gating is a pass-through guard
    around each public operation. *)
Definition addOptOutCheckMixpanelPeople {A : Type} (method : A) : A := method.

(** ** [MixpanelPeople] *)

Definition _is_reserved_property (prop : value) : bool :=
  match prop with
  | VStr s => String.eqb s "$distinct_id" || String.eqb s "$token"
  | _ => false
  end.

Definition _get_config {A : Type} (conf_var : config -> A) : M A :=
  read (fun w => conf_var (get_config w)).

Definition _identify_called : M bool := read identify_called.

(** Queue up engage operations if identify hasn't been called yet. *)
Definition _enqueue (data : value) : M unit :=
  let has k := has_key k (own_properties data) in
  if has SET_ACTION then _add_to_people_queue SET_ACTION data
  else if has SET_ONCE_ACTION then _add_to_people_queue SET_ONCE_ACTION data
  else if has UNSET_ACTION then _add_to_people_queue UNSET_ACTION data
  else if has ADD_ACTION then _add_to_people_queue ADD_ACTION data
  else if has APPEND_ACTION then _add_to_people_queue APPEND_ACTION data
  else if has UNION_ACTION then _add_to_people_queue UNION_ACTION data
  else console_error [VStr "Invalid call to _enqueue():"; data].

Definition minus_one : value := VNum (number_of_Z (-1)).

Definition _send_request (data : object) (callback : value) : M value :=
  tok <- _get_config token ;;
  let data := obj_set data "$token" (VStr tok) in
  id <- get_distinct_id ;;
  let data := obj_set data "$distinct_id" (VStr id) in

  let date_encoded_data := encodeDates (VObj data) in
  (* [_.encodeDates] rewrites the object it is given and returns it:
     [data] is that same object from here on *)
  let data := date_encoded_data in
  let truncated_data := truncate date_encoded_data 255 in
  let json_data := JSONEncode date_encoded_data in
  let encoded_data := base64Encode json_data in

  identified <- _identify_called ;;
  if negb identified then
    _enqueue data ;;
    (if negb (isUndefined callback) then
       verbose_mode <- _get_config verbose ;;
       if verbose_mode
       then call callback [VObj [("status", minus_one); ("error", VNull)]]
       else call callback [minus_one]
     else ret VUndefined) ;;
    ret truncated_data
  else
    console_log [VStr "MIXPANEL PEOPLE REQUEST:"] ;;
    console_log [truncated_data] ;;
    host_url <- _get_config api_host ;;
    mixpanel_send_request (host_url ++ "/engage/") encoded_data
      (_prepare_callback callback truncated_data) ;;
    ret truncated_data.

(** The iterator the map-shaped branches share:
    [if (!this._is_reserved_property(k)) { payload[k] = v; }] *)
Definition unless_reserved (v k : value) (payload : object) : object :=
  if negb (_is_reserved_property k)
  then obj_set payload (ToPropertyKey k) v
  else payload.

Definition set : value -> value -> value -> M value :=
  addOptOutCheckMixpanelPeople (fun prop to callback =>
    let '(_set, callback) :=
      if isObject prop
      then (each prop unless_reserved [], to)
      else (obj_set [] (ToPropertyKey prop) to, callback) in

    (* make sure that the referrer info has been updated and saved *)
    save_ref <- _get_config save_referrer ;;
    (if save_ref
     then referrer <- read document_referrer ;; update_referrer_info referrer
     else ret tt) ;;

    (* update $set object with default people properties *)
    defaults <- read people_properties ;;
    referrer_props <- get_referrer_info ;;
    let _set := extend [] [defaults; referrer_props; VObj _set] in

    let data := obj_set [] SET_ACTION (VObj _set) in
    _send_request data callback).

Definition set_once : value -> value -> value -> M value :=
  addOptOutCheckMixpanelPeople (fun prop to callback =>
    let '(_set_once, callback) :=
      if isObject prop
      then (each prop unless_reserved [], to)
      else (obj_set [] (ToPropertyKey prop) to, callback) in
    let data := obj_set [] SET_ONCE_ACTION (VObj _set_once) in
    _send_request data callback).

Definition unset (prop callback : value) : M value :=
  let prop := if negb (isArray prop) then VArr [prop] else prop in
  let _unset :=
    each prop
      (fun k _ names =>
         if negb (_is_reserved_property k) then names ++ [k] else names)
      [] in
  let data := obj_set [] UNSET_ACTION (VArr _unset) in
  _send_request data callback.

Definition one : value := VNum (number_of_Z 1).

(** The iterator of the map-shaped branch of [increment]. *)
Definition add_if_number (v k : value) (_add : object) : M object :=
  if negb (_is_reserved_property k) then
    if isNaN (parseFloat v) then
      console_error
        [VStr "Invalid increment value passed to mixpanel.people.increment - must be a number"] ;;
      ret _add
    else ret (obj_set _add (ToPropertyKey k) v)
  else ret _add.

Definition increment : value -> value -> value -> M value :=
  addOptOutCheckMixpanelPeople (fun prop by_ callback =>
    r <- (if isObject prop then
            _add <- each_M prop add_if_number [] ;;
            ret (_add, by_)
          else
            (* convenience: mixpanel.people.increment('property'); will
               increment 'property' by 1 *)
            let by_ := if isUndefined by_ then one else by_ in
            ret (obj_set [] (ToPropertyKey prop) by_, callback)) ;;
    let '(_add, callback) := r in
    let data := obj_set [] ADD_ACTION (VObj _add) in
    _send_request data callback).

Definition append : value -> value -> value -> M value :=
  addOptOutCheckMixpanelPeople (fun list_name value callback =>
    let '(_append, callback) :=
      if isObject list_name
      then (each list_name unless_reserved [], value)
      else (obj_set [] (ToPropertyKey list_name) value, callback) in
    let data := obj_set [] APPEND_ACTION (VObj _append) in
    _send_request data callback).

(** [_.isArray(v) ? v : [v]] *)
Definition as_array (v : value) : value :=
  if isArray v then v else VArr [v].

Definition union : value -> value -> value -> M value :=
  addOptOutCheckMixpanelPeople (fun list_name values callback =>
    let '(_union, callback) :=
      if isObject list_name
      then (each list_name
              (fun v k _union =>
                 if negb (_is_reserved_property k)
                 then obj_set _union (ToPropertyKey k) (as_array v)
                 else _union)
              [],
            values)
      else (obj_set [] (ToPropertyKey list_name) (as_array values),
            callback) in
    let data := obj_set [] UNION_ACTION (VObj _union) in
    _send_request data callback).

Definition track_charge : value -> value -> value -> M value :=
  addOptOutCheckMixpanelPeople (fun amount properties callback =>
    let checked :=
      if negb (isNumber amount) then
        let amount := parseFloat amount in
        if isNaN amount then None else Some (VNum amount)
      else Some amount in
    match checked with
    | None =>
        console_error
          [VStr "Invalid value passed to mixpanel.people.track_charge - must be a number"] ;;
        ret VUndefined
    | Some amount =>
        append (VStr "$transactions")
               (VObj (extend [("$amount", amount)] [properties]))
               callback
    end).

Definition clear_charges (callback : value) : M value :=
  set (VStr "$transactions") (VArr []) callback.

Definition delete_user : M value :=
  identified <- _identify_called ;;
  if negb identified then
    console_error
      [VStr "mixpanel.people.delete_user() requires you to call identify() first"] ;;
    ret VUndefined
  else
    id <- get_distinct_id ;;
    let data := [("$delete", VStr id)] in
    _send_request data VUndefined.

Definition _flush_one_queue (action : string)
    (action_method : value -> value -> M value) (callback : value)
    (queue_to_params_fn : option (value -> value)) : M unit :=
  queue <- _get_queue action ;;
  let queued_data := VObj (extend [] [queue]) in
  let action_params := queued_data in

  if negb (isUndefined queued_data) && isObject queued_data
     && negb (isEmptyObject queued_data)
  then
    _pop_from_people_queue action queued_data ;;
    let action_params :=
      match queue_to_params_fn with
      | Some fn => fn queued_data
      | None => action_params
      end in
    action_method action_params
      (VFun (CFlushOne action queued_data callback)) ;;
    ret tt
  else ret tt.

(** [$append_queue] is the array the store itself holds for the APPEND
    queue: [items_of_append_queue] reads what it holds now, and [pop] takes
    its last item out of the store. *)
Definition items_of_append_queue : M (list value) :=
  queue <- _get_queue APPEND_ACTION ;;
  ret match queue with VArr items => items | _ => [] end.

Definition pop : M value :=
  items <- items_of_append_queue ;;
  match items with
  | [] => ret VUndefined
  | _ =>
      modify (fun w =>
        set_persistence
          (set_queue APPEND_ACTION (VArr (removelast items)) (persistence w))
          w) ;;
      ret (last items VUndefined)
  end.

(** The body of [for (var i = $append_queue.length - 1; i >= 0; i--)], with
    [count = i + 1] rounds to go. *)
Fixpoint flush_append_loop (count : nat) (_append_item : nat)
    (callback : value) : M unit :=
  match count with
  | O => ret tt
  | S count' =>
      item <- pop ;;
      write_cell _append_item item ;;
      append item callback VUndefined ;;
      flush_append_loop count' _append_item callback
  end.

(** Flush queued engage operations - order does not matter,
    and there are network level race conditions anyway *)
Definition _flush (_set_callback _add_callback _append_callback
    _set_once_callback _union_callback _unset_callback : value) : M unit :=
  _append_queue <- _get_queue APPEND_ACTION ;;

  _flush_one_queue SET_ACTION (fun prop to => set prop to VUndefined)
    _set_callback None ;;
  _flush_one_queue SET_ONCE_ACTION (fun prop to => set_once prop to VUndefined)
    _set_once_callback None ;;
  _flush_one_queue UNSET_ACTION unset _unset_callback (Some keys) ;;
  _flush_one_queue ADD_ACTION (fun prop to => increment prop to VUndefined)
    _add_callback None ;;
  _flush_one_queue UNION_ACTION (fun prop to => union prop to VUndefined)
    _union_callback None ;;

  (* we have to fire off each $append individually since there is
     no concat method server side *)
  items <- items_of_append_queue ;;
  if negb (isUndefined _append_queue) && isArray _append_queue
     && negb (Nat.eqb (length items) 0)
  then
    _append_item <- new_cell ;;
    let callback := VFun (CFlushAppend _append_item _append_callback) in
    flush_append_loop (length items) _append_item callback ;;
    (* Save the shortened append queue *)
    save
  else ret tt.

(** ** What the properties speak of *)

(** The calls of a trace to the transport, to the store's [enqueue], to
    functions of the caller, and to [console.error]. *)
Definition transport_calls (t : list event)
  : list (string * base64_text * value) :=
  flat_map (fun e => match e with
                     | SendRequest url data callback => [(url, data, callback)]
                     | _ => []
                     end) t.

Definition enqueued (t : list event) : list (string * value) :=
  flat_map (fun e => match e with
                     | AddToPeopleQueue queue data => [(queue, data)]
                     | _ => []
                     end) t.

Definition calls (t : list event) : list (nat * list value) :=
  flat_map (fun e => match e with
                     | Called id args => [(id, args)]
                     | _ => []
                     end) t.

Definition errors (t : list event) : list (list value) :=
  flat_map (fun e => match e with
                     | ConsoleError args => [args]
                     | _ => []
                     end) t.

Definition logged (t : list event) : list (list value) :=
  flat_map (fun e => match e with
                     | ConsoleLog args => [args]
                     | _ => []
                     end) t.

Definition saves (t : list event) : nat :=
  length (filter (fun e => match e with Save => true | _ => false end) t).

(** A mutation call of the public interface. *)
Inductive mutation : Type :=
| CallSet (prop to callback : value)
| CallSetOnce (prop to callback : value)
| CallUnset (prop callback : value)
| CallIncrement (prop amount callback : value)
| CallAppend (list_name item callback : value)
| CallUnion (list_name values callback : value).

Definition run (c : mutation) : M value :=
  match c with
  | CallSet prop to callback => set prop to callback
  | CallSetOnce prop to callback => set_once prop to callback
  | CallUnset prop callback => unset prop callback
  | CallIncrement prop amount callback => increment prop amount callback
  | CallAppend list_name item callback => append list_name item callback
  | CallUnion list_name values callback => union list_name values callback
  end.

Definition action_kind (c : mutation) : string :=
  match c with
  | CallSet _ _ _ => SET_ACTION
  | CallSetOnce _ _ _ => SET_ONCE_ACTION
  | CallUnset _ _ => UNSET_ACTION
  | CallIncrement _ _ _ => ADD_ACTION
  | CallAppend _ _ _ => APPEND_ACTION
  | CallUnion _ _ _ => UNION_ACTION
  end.

(** The callback a call supplies: the last argument, which comes second
    when the first is a map. *)
Definition supplied_callback (c : mutation) : value :=
  match c with
  | CallUnset _ callback => callback
  | CallSet prop to callback | CallSetOnce prop to callback
  | CallIncrement prop to callback | CallAppend prop to callback
  | CallUnion prop to callback => if isObject prop then to else callback
  end.

(** A callback is absent or a function of the caller. *)
Definition callback_ok (callback : value) : Prop :=
  callback = VUndefined \/ exists id, callback = VFun (CUser id).

(** What the callback is called with, if there is one. *)
Definition callback_calls (callback : value) (args : list value)
  : list (nat * list value) :=
  match callback with
  | VFun (CUser id) => [(id, args)]
  | _ => []
  end.

(** The deferred result of [_send_request]. *)
Definition deferred (verbose_mode : bool) : value :=
  if verbose_mode
  then VObj [("status", minus_one); ("error", VNull)]
  else minus_one.

(** The composed request: the payload under its Action Kind, the token and
    the distinct id. *)
Definition composed (w : world) (kind : string) (payload : value) : value :=
  VObj [(kind, payload);
        ("$token", VStr (token (get_config w)));
        ("$distinct_id", VStr (distinct_id w))].

Definition engage_url (w : world) : string :=
  api_host (get_config w) ++ "/engage/".

(** The six Action Kinds a mutation is queued under. *)
Definition kinds : list string :=
  [SET_ACTION; SET_ONCE_ACTION; UNSET_ACTION; ADD_ACTION; APPEND_ACTION;
   UNION_ACTION].

(** The world after [_send_request] handed a request to the transport. *)
Definition dispatched (w : world) (data callback : value) : world :=
  let truncated_data := truncate data 255 in
  let w1 := log (ConsoleLog [truncated_data])
                (log (ConsoleLog [VStr "MIXPANEL PEOPLE REQUEST:"]) w) in
  let url := engage_url w in
  let encoded_data := base64Encode (JSONEncode data) in
  let prepared := _prepare_callback callback truncated_data in
  log (SendRequest url encoded_data prepared)
      (set_pending (pending w1 ++ [mkRequest url encoded_data prepared]) w1).

(** The world after [_send_request] handed an entry to the store. *)
Definition queued (w : world) (kind : string) (data : value) : world :=
  log (AddToPeopleQueue kind data)
      (set_persistence (add_policy host kind data (persistence w)) w).

(** Events that are neither an entry handed to the store, nor a request
    handed to the transport, nor a call of a function of the caller. *)
Definition benign (e : event) : bool :=
  match e with
  | ConsoleError _ | UpdateReferrerInfo _ | PopFromPeopleQueue _ _ => true
  | _ => false
  end.

(** [w0] is [w] after the part of a call that comes before
    [_send_request]. *)
Definition prelude (w w0 : world) : Prop :=
  identify_called w0 = identify_called w /\
  get_config w0 = get_config w /\
  distinct_id w0 = distinct_id w /\
  pending w0 = pending w /\
  exists es, trace w0 = trace w ++ es /\ forallb benign es = true.

Definition log_all (es : list event) (w : world) : world :=
  fold_left (fun w' e => log e w') es w.

(** The world after a callback of the caller, if any, was called. *)
Definition notified (callback : value) (args : list value) (w : world)
  : world :=
  match callback with
  | VFun (CUser id) => log (Called id args) w
  | _ => w
  end.

(** What the map-shaped branch of [increment] keeps and what it reports. *)
Definition increment_keeps (e : value * value) : bool :=
  negb (_is_reserved_property (snd e)) && negb (isNaN (parseFloat (fst e))).

Definition increment_rejects (e : value * value) : bool :=
  negb (_is_reserved_property (snd e)) && isNaN (parseFloat (fst e)).

Definition increment_kept (entries : list (value * value)) (acc : object)
  : object :=
  fold_left (fun acc' e => obj_set acc' (ToPropertyKey (snd e)) (fst e))
            (filter increment_keeps entries) acc.

Definition increment_error : event :=
  ConsoleError
    [VStr "Invalid increment value passed to mixpanel.people.increment - must be a number"].

Definition increment_reports (entries : list (value * value)) : list event :=
  map (fun _ => increment_error) (filter increment_rejects entries).

(** The five calls [_flush] makes to [_flush_one_queue] (people.js, lines
    428-432). *)
Inductive flushed : Type :=
| FlushSet | FlushSetOnce | FlushUnset | FlushAdd | FlushUnion.

Definition flush_one (k : flushed) (callback : value) : M unit :=
  match k with
  | FlushSet =>
      _flush_one_queue SET_ACTION (fun prop to => set prop to VUndefined)
        callback None
  | FlushSetOnce =>
      _flush_one_queue SET_ONCE_ACTION
        (fun prop to => set_once prop to VUndefined) callback None
  | FlushUnset =>
      _flush_one_queue UNSET_ACTION unset callback (Some keys)
  | FlushAdd =>
      _flush_one_queue ADD_ACTION
        (fun prop to => increment prop to VUndefined) callback None
  | FlushUnion =>
      _flush_one_queue UNION_ACTION (fun prop to => union prop to VUndefined)
        callback None
  end.

Definition action_of (k : flushed) : string :=
  match k with
  | FlushSet => SET_ACTION
  | FlushSetOnce => SET_ONCE_ACTION
  | FlushUnset => UNSET_ACTION
  | FlushAdd => ADD_ACTION
  | FlushUnion => UNION_ACTION
  end.

(** The payload and the callback of [append(item, callback)], and the
    request it sends once identity is resolved. *)
Definition append_payload (item callback : value) : value :=
  if isObject item
  then VObj (each item unless_reserved [])
  else VObj (obj_set [] (ToPropertyKey item) callback).

Definition append_callback (item callback : value) : value :=
  if isObject item then callback else VUndefined.

Definition append_request (w : world) (callback item : value) : request :=
  let data :=
    encodeDates (composed w APPEND_ACTION (append_payload item callback)) in
  mkRequest (engage_url w) (base64Encode (JSONEncode data))
            (_prepare_callback (append_callback item callback)
                               (truncate data 255)).

(** The part of [_flush] that comes after the five calls of
    [_flush_one_queue]. *)
Definition flush_append_queue (_append_queue _append_callback : value)
  : M unit :=
  items <- items_of_append_queue ;;
  if negb (isUndefined _append_queue) && isArray _append_queue
     && negb (Nat.eqb (length items) 0)
  then
    _append_item <- new_cell ;;
    let callback := VFun (CFlushAppend _append_item _append_callback) in
    flush_append_loop (length items) _append_item callback ;;
    save
  else ret tt.

(** No string of a value is longer than [n] units. *)
Fixpoint capped (n : nat) (v : value) : bool :=
  match v with
  | VStr s => (String.length s <=? n)%nat
  | VArr l => forallb (capped n) l
  | VObj o => forallb (fun kv : string * value => capped n (snd kv)) o
  | _ => true
  end.

(** The item of a charge as the specification words it: [properties]
    extended with [$amount] bound to the amount. *)
Definition charge_as_worded (amount properties : value) : value :=
  VObj (obj_set (own_properties properties) "$amount" amount).

(** The item of a charge as [track_charge] builds it. *)
Definition charge (amount properties : value) : value :=
  VObj (extend [("$amount", amount)] [properties]).

Definition track_charge_error : event :=
  ConsoleError
    [VStr "Invalid value passed to mixpanel.people.track_charge - must be a number"].

Definition delete_user_error : event :=
  ConsoleError
    [VStr "mixpanel.people.delete_user() requires you to call identify() first"].

(** ** What the further properties speak of *)

(** A name, or the key of an entry, that is not reserved. *)
Definition unreserved (k : value) : bool := negb (_is_reserved_property k).

Definition unreserved_entry (kv : string * value) : bool :=
  unreserved (VStr (fst kv)).

(** An entry of a map handed to [increment] whose value reads as a number,
    and one whose value does not; entries under a reserved key are
    neither. *)
Definition numeric_entry (kv : string * value) : bool :=
  unreserved_entry kv && negb (isNaN (parseFloat (snd kv))).

Definition rejected_entry (kv : string * value) : bool :=
  unreserved_entry kv && isNaN (parseFloat (snd kv)).

(** Every value of a payload is a sequence. *)
Definition all_arrays (payload : object) : Prop :=
  Forall (fun kv : string * value => isArray (snd kv) = true) payload.

(** The world after [set] made sure that the referrer info has been
    updated, and the default properties [set] then starts from: the people
    properties, overwritten by the referrer info. *)
Definition referrer_saved (w : world) : world :=
  if save_referrer (get_config w)
  then log (UpdateReferrerInfo (document_referrer w))
           (set_persistence
              (referrer_policy host (document_referrer w) (persistence w)) w)
  else w.

Definition set_defaults (w : world) : object :=
  extend [] [people_properties w;
             referrer_info (persistence (referrer_saved w))].

(** The properties of the caller, from either shape of call. *)
Definition caller_properties (prop to : value) : object :=
  if isObject prop
  then each prop unless_reserved []
  else obj_set [] (ToPropertyKey prop) to.



(** A callback that is given and is not a function. *)
Definition not_callable (callback : value) : bool :=
  match callback with
  | VUndefined | VFun _ => false
  | _ => true
  end.

(** [w'] is [w] after steps that reached the transport with nothing and
    left the identity flag alone. *)
Definition offline (w w' : world) : Prop :=
  identify_called w' = identify_called w /\
  pending w' = pending w /\
  transport_calls (trace w') = transport_calls (trace w).

(** A callback as a call made by [_flush] supplies it: a callback of the
    caller, or one of the two continuations of [_flush] around one. *)
Definition flush_callable (f : value) : Prop :=
  callback_ok f \/
  (exists action queued_data callback,
     f = VFun (CFlushOne action queued_data callback) /\
     callback_ok callback) \/
  (exists cell callback,
     f = VFun (CFlushAppend cell callback) /\ callback_ok callback).

(** The names of a queue: its keys that are not reserved, as values. *)
Definition names_of (o : object) : list value :=
  filter unreserved (map (fun kv : string * value => VStr (fst kv)) o).

(** The iterator of the map-shaped branch of [union]. *)
Definition union_entry (v k : value) (_union : object) : object :=
  if unreserved k
  then obj_set _union (ToPropertyKey k) (as_array v)
  else _union.

(** The names a call of [unset] is about: those of a sequence, or the one
    name given. *)
Definition names_given (prop : value) : list value :=
  match prop with
  | VArr names => names
  | _ => [prop]
  end.

(** The Mutation Payload of a call, from its arguments: the properties of
    the caller, over the defaults for [set]; the names that are not
    reserved for [unset]; for [increment], the entries of a map that read
    as numbers, or the one name with its amount, 1 when none is given; for
    [union], each value as a sequence. *)
Definition call_payload (c : mutation) (w : world) : value :=
  match c with
  | CallSet prop to _ =>
      VObj (fold_left (fun acc kv => obj_set acc (fst kv) (snd kv))
                      (caller_properties prop to) (set_defaults w))
  | CallSetOnce prop to _ => VObj (caller_properties prop to)
  | CallUnset prop _ => VArr (filter unreserved (names_given prop))
  | CallIncrement prop by_ _ =>
      if isObject prop
      then VObj (increment_kept (each_entries prop) [])
      else VObj [(ToPropertyKey prop, if isUndefined by_ then one else by_)]
  | CallAppend list_name item _ => VObj (caller_properties list_name item)
  | CallUnion list_name values _ =>
      if isObject list_name
      then VObj (each list_name union_entry [])
      else VObj [(ToPropertyKey list_name, as_array values)]
  end.

(** The world when the call reaches [_send_request]: after the referrer
    update of [set], after the reports of a map-shaped [increment]. *)
Definition call_prelude (c : mutation) (w : world) : world :=
  match c with
  | CallSet _ _ _ => referrer_saved w
  | CallIncrement prop _ _ =>
      if isObject prop
      then log_all (increment_reports (each_entries prop)) w
      else w
  | _ => w
  end.

(** The amount [track_charge] records, and whether it refuses it. *)
Definition charged_amount (amount : value) : value :=
  if isNumber amount then amount else VNum (parseFloat amount).

Definition refused_amount (amount : value) : bool :=
  negb (isNumber amount) && isNaN (parseFloat amount).

(** The union encoding of an entry. *)
Definition encoded_entry (kv : string * value) : string * value :=
  (fst kv, as_array (snd kv)).

(** ** Properties *)

(** *** Traces *)

Lemma trace_log (e : event) (w : world) : trace (log e w) = trace w ++ [e].
Proof. reflexivity. Qed.

Lemma trace_log_all (es : list event) (w : world) :
  trace (log_all es w) = trace w ++ es.
Proof.
  revert w. induction es as [| e es IH]; intros w; simpl.
  - now rewrite app_nil_r.
  - rewrite IH. simpl. now rewrite <- app_assoc.
Qed.

Lemma log_all_frame (es : list event) (w : world) :
  identify_called (log_all es w) = identify_called w /\
  get_config (log_all es w) = get_config w /\
  distinct_id (log_all es w) = distinct_id w /\
  pending (log_all es w) = pending w /\
  persistence (log_all es w) = persistence w.
Proof.
  revert w. induction es as [| e es IH]; intros w; simpl.
  - repeat split.
  - destruct (IH (log e w)) as (H1 & H2 & H3 & H4 & H5).
    rewrite H1, H2, H3, H4, H5. repeat split.
Qed.

Lemma prelude_refl (w : world) : prelude w w.
Proof.
  repeat split. exists []. split; [now rewrite app_nil_r | reflexivity].
Qed.

Lemma benign_transport (es : list event) :
  forallb benign es = true ->
  transport_calls es = [] /\ enqueued es = [] /\ calls es = [].
Proof.
  induction es as [| e es IH]; simpl; intros H.
  - repeat split.
  - apply andb_true_iff in H. destruct H as [He Hes].
    destruct (IH Hes) as (H1 & H2 & H3).
    destruct e; try discriminate He; simpl; rewrite ?H1, ?H2, ?H3;
      repeat split.
Qed.

Lemma prelude_projections (w w0 : world) :
  prelude w w0 ->
  transport_calls (trace w0) = transport_calls (trace w) /\
  enqueued (trace w0) = enqueued (trace w) /\
  calls (trace w0) = calls (trace w).
Proof.
  intros (_ & _ & _ & _ & es & Ht & Hb).
  destruct (benign_transport es Hb) as (H1 & H2 & H3).
  rewrite Ht. unfold transport_calls, enqueued, calls in *.
  rewrite !flat_map_app, H1, H2, H3, !app_nil_r. repeat split.
Qed.

(** *** The encoders *)

Lemma increment_each (entries : list (value * value)) (acc : object)
    (w : world) :
  each_entries_M entries add_if_number acc w
  = (Ok (increment_kept entries acc), log_all (increment_reports entries) w).
Proof.
  revert acc w. induction entries as [| e entries IH]; intros acc w.
  - reflexivity.
  - cbn [each_entries_M]. unfold bind at 1.
    unfold add_if_number, increment_kept, increment_reports.
    cbn [filter]. unfold increment_keeps at 1, increment_rejects at 1.
    destruct (_is_reserved_property (snd e)); cbn [negb andb].
    + unfold ret at 1. apply IH.
    + destruct (isNaN (parseFloat (fst e))); cbn [negb].
      * unfold bind at 1, console_error, modify, ret at 1.
        rewrite IH. reflexivity.
      * unfold ret at 1. rewrite IH. reflexivity.
Qed.


Lemma prelude_log_all (es : list event) (w : world) :
  forallb benign es = true -> prelude w (log_all es w).
Proof.
  intros Hb. destruct (log_all_frame es w) as (H1 & H2 & H3 & H4 & _).
  repeat split; try assumption.
  exists es. split; [apply trace_log_all | assumption].
Qed.

Lemma increment_reports_benign (entries : list (value * value)) :
  forallb benign (increment_reports entries) = true.
Proof.
  unfold increment_reports.
  induction (filter increment_rejects entries); simpl; auto.
Qed.

(** Every mutation call comes down to one call of [_send_request], with a
    payload under the Action Kind of the call and the callback the call
    supplies; what comes before touches neither queue nor transport. *)
Lemma run_reduces (c : mutation) (w : world) :
  exists payload w0,
    prelude w w0 /\
    run c w
    = _send_request [(action_kind c, payload)] (supplied_callback c) w0.
Proof.
  destruct c as [prop to cb | prop to cb | prop cb | prop to cb | prop to cb
                | prop to cb]; cbn [run action_kind supplied_callback].
  - (* set *)
    unfold set, addOptOutCheckMixpanelPeople.
    destruct (isObject prop);
      unfold bind at 1, _get_config at 1, read at 1;
      (destruct (save_referrer (get_config w)) eqn:Hs;
       [ eexists _, (log (UpdateReferrerInfo (document_referrer w))
                      (set_persistence
                         (referrer_policy host (document_referrer w)
                                          (persistence w)) w));
         split;
         [ repeat split; exists [UpdateReferrerInfo (document_referrer w)];
           split; reflexivity
         | reflexivity ]
       | eexists _, w; split; [apply prelude_refl | reflexivity] ]).
  - (* set_once *)
    unfold set_once, addOptOutCheckMixpanelPeople.
    destruct (isObject prop); eexists _, w;
      (split; [apply prelude_refl | reflexivity]).
  - (* unset *)
    unfold unset. eexists _, w. split; [apply prelude_refl | reflexivity].
  - (* increment *)
    unfold increment, addOptOutCheckMixpanelPeople.
    destruct (isObject prop).
    + unfold bind at 1, bind at 1, each_M. rewrite increment_each.
      eexists _, _. split; [| reflexivity].
      apply prelude_log_all, increment_reports_benign.
    + eexists _, w. split; [apply prelude_refl | reflexivity].
  - (* append *)
    unfold append, addOptOutCheckMixpanelPeople.
    destruct (isObject prop); eexists _, w;
      (split; [apply prelude_refl | reflexivity]).
  - (* union *)
    unfold union, addOptOutCheckMixpanelPeople.
    destruct (isObject prop); eexists _, w;
      (split; [apply prelude_refl | reflexivity]).
Qed.

Lemma action_kind_in (c : mutation) : In (action_kind c) kinds.
Proof. destruct c; simpl; auto 7. Qed.

(** *** The dispatcher *)

Lemma send_request_identified (data : object) (callback : value) (w : world) :
  identify_called w = true ->
  let request :=
    encodeDates
      (VObj (obj_set (obj_set data "$token" (VStr (token (get_config w))))
                     "$distinct_id" (VStr (distinct_id w)))) in
  _send_request data callback w
  = (Ok (truncate request 255), dispatched w request callback).
Proof.
  intros Hid request.
  unfold _send_request, bind, _get_config, get_distinct_id, _identify_called,
    read.
  rewrite Hid. reflexivity.
Qed.

Lemma composed_kind (kind : string) (payload : value) (w : world) :
  In kind kinds ->
  obj_set (obj_set [(kind, payload)] "$token" (VStr (token (get_config w))))
          "$distinct_id" (VStr (distinct_id w))
  = [(kind, payload); ("$token", VStr (token (get_config w)));
     ("$distinct_id", VStr (distinct_id w))].
Proof.
  intros Hk. unfold kinds in Hk. simpl in Hk.
  repeat (destruct Hk as [<- | Hk]; [reflexivity |]).
  contradiction.
Qed.

Lemma enqueue_kind (kind : string) (payload : value) (w : world) :
  In kind kinds ->
  _enqueue (encodeDates (composed w kind payload))
  = _add_to_people_queue kind (encodeDates (composed w kind payload)).
Proof.
  intros Hk. unfold kinds in Hk. simpl in Hk.
  repeat (destruct Hk as [<- | Hk]; [reflexivity |]).
  contradiction.
Qed.

Lemma send_request_unidentified (kind : string) (payload callback : value)
    (w : world) :
  In kind kinds ->
  identify_called w = false ->
  let data := encodeDates (composed w kind payload) in
  _send_request [(kind, payload)] callback w
  = ((if negb (isUndefined callback)
      then call callback [deferred (verbose (get_config w))]
      else ret VUndefined) ;;
     ret (truncate data 255)) (queued w kind data).
Proof.
  intros Hk Hid data.
  unfold _send_request, bind at 1 2 3, _get_config at 1, get_distinct_id,
    _identify_called, read.
  rewrite Hid. rewrite (composed_kind kind payload w Hk).
  fold (composed w kind payload). fold data. cbn [negb].
  unfold data at 1. rewrite enqueue_kind by assumption. fold data.
  unfold bind at 1. unfold _add_to_people_queue at 1, modify.
  fold (queued w kind data).
  unfold bind. destruct (isUndefined callback); cbn [negb].
  - reflexivity.
  - unfold _get_config, read. 
    replace (get_config (queued w kind data)) with (get_config w) by reflexivity.
    unfold deferred. destruct (verbose (get_config w)); reflexivity.
Qed.

Lemma call_callback_ok (callback : value) (args : list value) (w : world) :
  callback_ok callback ->
  (if negb (isUndefined callback) then call callback args else ret VUndefined)
    w
  = (Ok VUndefined, notified callback args w).
Proof.
  intros [-> | [id ->]]; reflexivity.
Qed.

Lemma composed_prelude (w w0 : world) (kind : string) (payload : value) :
  prelude w w0 -> composed w0 kind payload = composed w kind payload.
Proof.
  intros (_ & Hc & Hd & _). unfold composed. now rewrite Hc, Hd.
Qed.

(** A mutation call before identity is resolved. *)
Lemma mutation_unidentified (c : mutation) (w : world) :
  identify_called w = false ->
  callback_ok (supplied_callback c) ->
  exists payload w0,
    prelude w w0 /\
    let data := encodeDates (composed w (action_kind c) payload) in
    run c w
    = (Ok (truncate data 255),
       notified (supplied_callback c) [deferred (verbose (get_config w))]
                (queued w0 (action_kind c) data)).
Proof.
  intros Hid Hcb.
  destruct (run_reduces c w) as (payload & w0 & Hpre & Hrun).
  exists payload, w0. split; [assumption |]. intros data.
  rewrite Hrun.
  pose proof Hpre as (Hi & Hc & _).
  rewrite send_request_unidentified
    by (try apply action_kind_in; congruence).
  rewrite (composed_prelude w w0) by assumption. fold data.
  unfold bind. rewrite call_callback_ok by assumption.
  replace (get_config (queued w0 (action_kind c) data)) with (get_config w0)
    by reflexivity.
  rewrite Hc. reflexivity.
Qed.

(** A mutation call once identity is resolved. *)
Lemma mutation_identified (c : mutation) (w : world) :
  identify_called w = true ->
  exists payload w0,
    prelude w w0 /\
    let data := encodeDates (composed w (action_kind c) payload) in
    run c w
    = (Ok (truncate data 255), dispatched w0 data (supplied_callback c)).
Proof.
  intros Hid.
  destruct (run_reduces c w) as (payload & w0 & Hpre & Hrun).
  exists payload, w0. split; [assumption |]. intros data.
  rewrite Hrun.
  pose proof Hpre as (Hi & _).
  rewrite send_request_identified by congruence.
  rewrite composed_kind by apply action_kind_in.
  fold (composed w0 (action_kind c) payload).
  rewrite (composed_prelude w w0) by assumption. reflexivity.
Qed.

Lemma projections_log (e : event) (w : world) :
  transport_calls (trace (log e w))
  = transport_calls (trace w) ++ transport_calls [e] /\
  enqueued (trace (log e w)) = enqueued (trace w) ++ enqueued [e] /\
  calls (trace (log e w)) = calls (trace w) ++ calls [e].
Proof.
  rewrite trace_log. unfold transport_calls, enqueued, calls.
  rewrite !flat_map_app. repeat split.
Qed.

Lemma projections_notified (callback : value) (args : list value)
    (w : world) :
  callback_ok callback ->
  pending (notified callback args w) = pending w /\
  transport_calls (trace (notified callback args w))
  = transport_calls (trace w) /\
  enqueued (trace (notified callback args w)) = enqueued (trace w) /\
  calls (trace (notified callback args w))
  = calls (trace w) ++ callback_calls callback args.
Proof.
  intros [-> | [id ->]]; cbn [notified callback_calls].
  - rewrite app_nil_r. repeat split.
  - destruct (projections_log (Called id args) w) as (H1 & H2 & H3).
    rewrite H1, H2, H3. cbn. rewrite !app_nil_r. repeat split.
Qed.

Lemma projections_queued (w : world) (kind : string) (data : value) :
  pending (queued w kind data) = pending w /\
  transport_calls (trace (queued w kind data)) = transport_calls (trace w) /\
  enqueued (trace (queued w kind data))
  = enqueued (trace w) ++ [(kind, data)] /\
  calls (trace (queued w kind data)) = calls (trace w).
Proof.
  unfold queued.
  destruct (projections_log (AddToPeopleQueue kind data)
              (set_persistence (add_policy host kind data (persistence w)) w))
    as (H1 & H2 & H3).
  rewrite H1, H2, H3. simpl. rewrite !app_nil_r. repeat split.
Qed.

Lemma deferred_is_neither (verbose_mode : bool) :
  is_zero (deferred verbose_mode) = false /\ deferred verbose_mode <> one.
Proof.
  destruct verbose_mode; split; try reflexivity; discriminate.
Qed.

(** C9.  The entry a mutation call hands to the store while identity is
    unresolved is the composed request: it holds the Mutation Payload under
    the Action Kind and, next to it, the token and the distinct id of the
    moment under [$token] and [$distinct_id]. *)
Theorem queued_entry_is_composed_request (c : mutation) (w : world) :
  identify_called w = false ->
  callback_ok (supplied_callback c) ->
  exists data payload,
    enqueued (trace (snd (run c w)))
    = enqueued (trace w) ++ [(action_kind c, data)] /\
    lookup (action_kind c) (own_properties data) = Some payload /\
    lookup "$token" (own_properties data)
    = Some (VStr (token (get_config w))) /\
    lookup "$distinct_id" (own_properties data)
    = Some (VStr (distinct_id w)).
Proof.
  intros Hid Hcb.
  destruct (mutation_unidentified c w Hid Hcb) as (payload & w0 & Hpre & Hrun).
  cbv zeta in Hrun.
  set (data := encodeDates (composed w (action_kind c) payload)) in *.
  exists data, (encodeDates payload). rewrite Hrun. cbn [snd].
  destruct (projections_notified (supplied_callback c)
              [deferred (verbose (get_config w))]
              (queued w0 (action_kind c) data) Hcb) as (_ & _ & N3 & _).
  destruct (projections_queued w0 (action_kind c) data) as (_ & _ & Q3 & _).
  destruct (prelude_projections w w0 Hpre) as (_ & P2 & _).
  rewrite N3, Q3, P2.
  split; [reflexivity |].
  unfold data. destruct c; repeat split; reflexivity.
Qed.

Lemma projections_dispatched (w : world) (data callback : value) :
  let url := engage_url w in
  let encoded_data := base64Encode (JSONEncode data) in
  let prepared := _prepare_callback callback (truncate data 255) in
  pending (dispatched w data callback)
  = pending w ++ [mkRequest url encoded_data prepared] /\
  transport_calls (trace (dispatched w data callback))
  = transport_calls (trace w) ++ [(url, encoded_data, prepared)] /\
  enqueued (trace (dispatched w data callback)) = enqueued (trace w) /\
  calls (trace (dispatched w data callback)) = calls (trace w) /\
  errors (trace (dispatched w data callback)) = errors (trace w) /\
  logged (trace (dispatched w data callback))
  = logged (trace w)
    ++ [[VStr "MIXPANEL PEOPLE REQUEST:"]; [truncate data 255]].
Proof.
  unfold dispatched, transport_calls, enqueued, calls, errors, logged.
  cbn [trace log set_pending pending].
  rewrite !flat_map_app. cbn [flat_map app]. rewrite ?app_nil_r.
  rewrite <- ?app_assoc. repeat split.
Qed.

(** *** Truncation *)

Lemma length_substring_le (n : nat) (s : string) :
  (String.length (substring 0 n s) <= n)%nat.
Proof.
  revert s. induction n as [| n IH]; intros [| c s]; simpl; try lia.
  specialize (IH s). lia.
Qed.

Lemma truncate_capped (n : nat) : forall v, capped n (truncate v n) = true.
Proof.
  fix IH 1. intros [| | b | x | s | d | l | o | f]; simpl; try reflexivity.
  - apply Nat.leb_le, length_substring_le.
  - induction l as [| a l IHl]; simpl; [reflexivity |].
    now rewrite IH, IHl.
  - induction o as [| [k a] o IHo]; simpl; [reflexivity |].
    now rewrite IH, IHo.
Qed.

(** What the code does with identity resolved: a mutation call hands to the
    transport the encoding of the composed request itself (payload under
    the Action Kind, token, distinct id; dates as text), and logs, prepares
    the continuation with and returns its truncated copy, in which no string
    is longer than 255 units. *)
Theorem wire_request_is_the_untruncated_request (c : mutation) (w : world) :
  identify_called w = true ->
  exists payload w',
    let request := encodeDates (composed w (action_kind c) payload) in
    run c w = (Ok (truncate request 255), w') /\
    transport_calls (trace w')
    = transport_calls (trace w)
      ++ [(engage_url w, base64Encode (JSONEncode request),
           _prepare_callback (supplied_callback c) (truncate request 255))] /\
    last (logged (trace w')) [] = [truncate request 255] /\
    capped 255 (truncate request 255) = true.
Proof.
  intros Hid.
  destruct (mutation_identified c w Hid) as (payload & w0 & Hpre & Hrun).
  exists payload. eexists. cbv zeta in *.
  split; [exact Hrun |].
  destruct (projections_dispatched w0
              (encodeDates (composed w (action_kind c) payload))
              (supplied_callback c)) as (_ & D2 & _ & _ & _ & D6).
  cbv zeta in D2. rewrite D2, D6.
  destruct (prelude_projections w w0 Hpre) as (P1 & _).
  pose proof Hpre as (_ & Hc & _).
  rewrite P1. unfold engage_url. rewrite Hc.
  repeat split.
  - match goal with
    | |- last (?l ++ [?a; ?b]) _ = _ =>
        change (l ++ [a; b]) with (l ++ [a] ++ [b])
    end.
    now rewrite app_assoc, last_last.
  - apply truncate_capped.
Qed.

(** *** [delete_user] *)

(** C5.  [delete_user] before identity is resolved reports one error, makes
    no transport call, queues nothing and returns nothing; after, it makes
    one request, whose payload holds the distinct id under [$delete]. *)
Theorem delete_user_requires_identity (w : world) :
  (identify_called w = false ->
   delete_user w = (Ok VUndefined, log delete_user_error w) /\
   errors (trace (log delete_user_error w))
   = errors (trace w)
     ++ [[VStr "mixpanel.people.delete_user() requires you to call identify() first"]] /\
   transport_calls (trace (log delete_user_error w))
   = transport_calls (trace w) /\
   enqueued (trace (log delete_user_error w)) = enqueued (trace w) /\
   pending (log delete_user_error w) = pending w /\
   persistence (log delete_user_error w) = persistence w) /\
  (identify_called w = true ->
   exists request w',
     delete_user w = (Ok (truncate request 255), w') /\
     lookup "$delete" (own_properties request) = Some (VStr (distinct_id w)) /\
     transport_calls (trace w')
     = transport_calls (trace w)
       ++ [(engage_url w, base64Encode (JSONEncode request), VNull)] /\
     pending w'
     = pending w
       ++ [mkRequest (engage_url w) (base64Encode (JSONEncode request))
                     VNull] /\
     enqueued (trace w') = enqueued (trace w) /\
     errors (trace w') = errors (trace w)).
Proof.
  split; intros Hid.
  - split.
    + unfold delete_user, bind at 1, _identify_called, read.
      rewrite Hid. reflexivity.
    + rewrite trace_log. unfold errors, transport_calls, enqueued.
      rewrite !flat_map_app. cbn. rewrite !app_nil_r. repeat split.
  - unfold delete_user, bind, _identify_called, get_distinct_id, read.
    rewrite Hid. cbn [negb].
    rewrite send_request_identified by assumption.
    eexists _, _. split; [reflexivity |].
    split; [reflexivity |].
    match goal with
    | |- context [dispatched w ?d ?cb] =>
        destruct (projections_dispatched w d cb)
          as (D1 & D2 & D3 & _ & D5 & _)
    end.
    cbv zeta in D1, D2. rewrite D1, D2, D3, D5. repeat split.
Qed.

(** *** [union] *)

Lemma as_array_idempotent (v : value) : as_array (as_array v) = as_array v.
Proof. destruct v; reflexivity. Qed.

Lemma union_map_encoded (o acc : object) :
  fold_left
    (fun acc' e =>
       if negb (_is_reserved_property (snd e))
       then obj_set acc' (ToPropertyKey (snd e)) (as_array (fst e))
       else acc')
    (each_entries
       (VObj (map (fun kv : string * value => (fst kv, as_array (snd kv))) o)))
    acc
  = fold_left
      (fun acc' e =>
         if negb (_is_reserved_property (snd e))
         then obj_set acc' (ToPropertyKey (snd e)) (as_array (fst e))
         else acc')
      (each_entries (VObj o)) acc.
Proof.
  revert acc. induction o as [| [k v] o IH]; intros acc.
  - reflexivity.
  - cbn [each_entries own_properties map fold_left fst snd] in *.
    rewrite as_array_idempotent. apply IH.
Qed.

(** *** [track_charge] *)

Lemma lookup_obj_set_same (k : string) (o : object) (v : value) :
  lookup k (obj_set o k v) = Some v.
Proof.
  induction o as [| [k' v'] o IH]; simpl.
  - now rewrite String.eqb_refl.
  - destruct (String.eqb k k') eqn:E; simpl; rewrite E; auto.
Qed.

Lemma lookup_obj_set_other (k k' : string) (o : object) (v : value) :
  k <> k' -> lookup k (obj_set o k' v) = lookup k o.
Proof.
  intros Hne. induction o as [| [k1 v1] o IH]; simpl.
  - apply String.eqb_neq in Hne. now rewrite Hne.
  - destruct (String.eqb k' k1) eqn:E; simpl.
    + apply String.eqb_eq in E. subst k1.
      apply String.eqb_neq in Hne. now rewrite Hne.
    + destruct (String.eqb k k1); auto.
Qed.

Lemma lookup_fold_absent (k : string) (entries acc : object) :
  lookup k entries = None ->
  lookup k (fold_left (fun acc' kv => obj_set acc' (fst kv) (snd kv))
                      entries acc)
  = lookup k acc.
Proof.
  revert acc. induction entries as [| [k1 v1] entries IH]; intros acc H.
  - reflexivity.
  - simpl in H. destruct (String.eqb k k1) eqn:E; [discriminate |].
    cbn [fold_left fst snd]. rewrite IH by assumption.
    apply lookup_obj_set_other. now apply String.eqb_neq.
Qed.

Lemma lookup_not_in (k : string) (o : object) :
  ~ In k (map fst o) -> lookup k o = None.
Proof.
  induction o as [| [k1 v1] o IH]; simpl; intros H; [reflexivity |].
  destruct (String.eqb k k1) eqn:E.
  - apply String.eqb_eq in E. subst. exfalso. auto.
  - apply IH. auto.
Qed.

Lemma lookup_fold_present (k : string) (entries acc : object) (v : value) :
  NoDup (map fst entries) ->
  lookup k entries = Some v ->
  lookup k (fold_left (fun acc' kv => obj_set acc' (fst kv) (snd kv))
                      entries acc)
  = Some v.
Proof.
  revert acc. induction entries as [| [k1 v1] entries IH]; intros acc Hnd H.
  - discriminate.
  - simpl in H. inversion Hnd as [| ? ? Hnotin Hnd']; subst.
    cbn [fold_left fst snd].
    destruct (String.eqb k k1) eqn:E.
    + apply String.eqb_eq in E. subst k1. injection H as ->.
      rewrite lookup_fold_absent by now apply lookup_not_in.
      apply lookup_obj_set_same.
    + now apply IH.
Qed.

(** C10, as amended.  [track_charge] with an amount that is not a number
    and does not read as one reports one error and does nothing else; with
    a number, or with a value that reads as one, it is
    [append('$transactions', m, callback)], where [m] is [{$amount: amount}]
    extended with [properties]: [$amount] is the amount when [properties]
    has no [$amount] of its own, and is that of [properties] when it has. *)
Theorem track_charge_appends_the_charge (amount properties callback : value)
    (w : world) :
  (isNumber amount = false -> isNaN (parseFloat amount) = true ->
   track_charge amount properties callback w
   = (Ok VUndefined, log track_charge_error w)) /\
  (isNumber amount = true ->
   track_charge amount properties callback w
   = append (VStr "$transactions") (charge amount properties) callback w) /\
  (isNumber amount = false -> isNaN (parseFloat amount) = false ->
   track_charge amount properties callback w
   = append (VStr "$transactions")
            (charge (VNum (parseFloat amount)) properties) callback w) /\
  (lookup "$amount" (own_properties properties) = None ->
   lookup "$amount" (own_properties (charge amount properties))
   = Some amount) /\
  (forall v,
     NoDup (map fst (own_properties properties)) ->
     lookup "$amount" (own_properties properties) = Some v ->
     lookup "$amount" (own_properties (charge amount properties)) = Some v).
Proof.
  unfold track_charge, addOptOutCheckMixpanelPeople, charge.
  repeat split.
  - intros Hn Hp. rewrite Hn, Hp. reflexivity.
  - intros Hn. rewrite Hn. reflexivity.
  - intros Hn Hp. rewrite Hn, Hp. reflexivity.
  - intros H. cbn [own_properties extend fold_left].
    rewrite lookup_fold_absent by assumption. reflexivity.
  - intros v Hnd H. cbn [own_properties extend fold_left].
    now apply lookup_fold_present.
Qed.

(** *** The flush coordinator *)

Lemma obj_set_fresh (o : object) (k : string) (v : value) :
  ~ In k (map fst o) -> obj_set o k v = o ++ [(k, v)].
Proof.
  induction o as [| [k' v'] o IH]; simpl; intros H; [reflexivity |].
  destruct (String.eqb k k') eqn:E.
  - apply String.eqb_eq in E. subst. exfalso. auto.
  - rewrite IH by auto. reflexivity.
Qed.

Lemma fold_set_fresh (o acc : object) :
  NoDup (map fst (acc ++ o)) ->
  fold_left (fun acc' kv => obj_set acc' (fst kv) (snd kv)) o acc = acc ++ o.
Proof.
  revert acc. induction o as [| [k v] o IH]; intros acc Hnd.
  - now rewrite app_nil_r.
  - cbn [fold_left fst snd].
    assert (Hk : ~ In k (map fst acc)).
    { rewrite map_app in Hnd. cbn [map fst] in Hnd.
      apply NoDup_remove_2 in Hnd. intros Hin. apply Hnd.
      apply in_or_app. now left. }
    rewrite obj_set_fresh by assumption.
    rewrite IH; rewrite <- app_assoc; [reflexivity | exact Hnd].
Qed.

(** The copy [_.extend({}, queue)] of a queue is the queue. *)
Lemma extend_copy (o : object) :
  NoDup (map fst o) -> extend [] [VObj o] = o.
Proof.
  intros Hnd. unfold extend. cbn [fold_left own_properties].
  now rewrite fold_set_fresh.
Qed.

(** What the continuation of [_flush_one_queue] does with a result. *)
Lemma flush_one_queue_continuation_spec (action : string)
    (queued_data callback response data : value) (w : world) :
  callback_ok callback ->
  exists w',
    call (VFun (CFlushOne action queued_data callback)) [response; data] w
    = (Ok VUndefined, w') /\
    enqueued (trace w')
    = enqueued (trace w)
      ++ (if is_zero response then [(action, queued_data)] else []) /\
    calls (trace w')
    = calls (trace w) ++ callback_calls callback [response; data].
Proof.
  intros Hcb. cbn [call arg nth].
  unfold flush_one_queue_continuation, bind.
  destruct (is_zero response).
  - unfold _add_to_people_queue at 1, modify.
    fold (queued w action queued_data).
    rewrite call_callback_ok by assumption. eexists. split; [reflexivity |].
    destruct (projections_notified callback [response; data]
                (queued w action queued_data) Hcb) as (_ & _ & N3 & N4).
    destruct (projections_queued w action queued_data) as (_ & _ & Q3 & Q4).
    rewrite N3, N4, Q3, Q4. split; reflexivity.
  - unfold ret at 1. rewrite call_callback_ok by assumption.
    eexists. split; [reflexivity |].
    destruct (projections_notified callback [response; data] w Hcb)
      as (_ & _ & N3 & N4).
    rewrite N3, N4, app_nil_r. split; reflexivity.
Qed.

(** Each of the five calls is a mutation call with the continuation in the
    place of the callback. *)
Lemma flush_one_dispatches (k : flushed) (callback : value) (o : object)
    (w : world) :
  identify_called w = true ->
  lookup (action_of k) (people_queue (persistence w)) = Some (VObj o) ->
  o <> [] ->
  NoDup (map fst o) ->
  exists payload w0,
    let continuation := VFun (CFlushOne (action_of k) (VObj o) callback) in
    let data := encodeDates (composed w (action_of k) payload) in
    prelude w w0 /\
    flush_one k callback w = (Ok tt, dispatched w0 data continuation).
Proof.
  intros Hid Hq Hne Hnd.
  set (continuation := VFun (CFlushOne (action_of k) (VObj o) callback)).
  set (wp := log (PopFromPeopleQueue (action_of k) (VObj o))
               (set_persistence
                  (pop_policy host (action_of k) (VObj o) (persistence w))
                  w)).
  assert (Hpop : prelude wp wp) by apply prelude_refl.
  assert (Hstep : forall c,
             action_kind c = action_of k ->
             supplied_callback c = continuation ->
             exists payload w0,
               prelude w w0 /\
               (run c ;; ret tt) wp
               = (Ok tt,
                  dispatched w0
                    (encodeDates (composed w (action_of k) payload))
                    continuation)).
  { intros c Hk Hc.
    destruct (mutation_identified c wp Hid) as (payload & w0 & Hpre & Hrun).
    cbv zeta in Hrun. exists payload, w0. split.
    - destruct Hpre as (P1 & P2 & P3 & P4 & es & P5 & P6).
      repeat split; try assumption.
      exists (PopFromPeopleQueue (action_of k) (VObj o) :: es).
      split.
      + rewrite P5. unfold wp. rewrite trace_log, <- app_assoc. reflexivity.
      + exact P6.
    - unfold bind. rewrite Hrun, Hk, Hc. reflexivity. }
  clear Hpop.
  assert (Hempty : isEmptyObject (VObj o) = false).
  { destruct o; [congruence | reflexivity]. }
  destruct k; cbn [flush_one action_of] in *;
    unfold _flush_one_queue, bind at 1, _get_queue, read;
    rewrite Hq, extend_copy by assumption;
    rewrite Hempty; cbn [isUndefined isObject negb andb];
    unfold bind at 1, _pop_from_people_queue at 1, modify; fold wp.
  - exact (Hstep (CallSet (VObj o) continuation VUndefined) eq_refl eq_refl).
  - exact (Hstep (CallSetOnce (VObj o) continuation VUndefined)
                 eq_refl eq_refl).
  - exact (Hstep (CallUnset (keys (VObj o)) continuation) eq_refl eq_refl).
  - exact (Hstep (CallIncrement (VObj o) continuation VUndefined)
                 eq_refl eq_refl).
  - exact (Hstep (CallUnion (VObj o) continuation VUndefined)
                 eq_refl eq_refl).
Qed.

(** C3.  For each Action Kind other than APPEND that [_flush] flushes with a
    queue that is not empty: the request goes out with a continuation that,
    when the transport reports the network failure [0], hands back to the
    store, under the same Action Kind, the queue as it was read before the
    dispatch (for UNSET too, where what is dispatched is the sequence of its
    keys), that hands nothing back on another result, and that in both
    cases passes the result on to the callback given for the kind, if
    any. *)
Theorem flush_failure_requeues_what_was_read (k : flushed) (callback : value)
    (o : object) (w : world) :
  identify_called w = true ->
  lookup (action_of k) (people_queue (persistence w)) = Some (VObj o) ->
  o <> [] ->
  NoDup (map fst o) ->
  callback_ok callback ->
  exists w1 request data,
    flush_one k callback w = (Ok tt, w1) /\
    pending w1 = pending w ++ [request] /\
    enqueued (trace w1) = enqueued (trace w) /\
    forall n response w2,
      nth_error (pending w2) n = Some request ->
      exists w3,
        transport_respond n response w2 = (Ok VUndefined, w3) /\
        enqueued (trace w3)
        = enqueued (trace w2)
          ++ (if is_zero response then [(action_of k, VObj o)] else []) /\
        calls (trace w3)
        = calls (trace w2) ++ callback_calls callback [response; data].
Proof.
  intros Hid Hq Hne Hnd Hcb.
  destruct (flush_one_dispatches k callback o w Hid Hq Hne Hnd)
    as (payload & w0 & Hpre & Hrun).
  cbv zeta in Hrun.
  set (continuation := VFun (CFlushOne (action_of k) (VObj o) callback)) in *.
  set (request := encodeDates (composed w (action_of k) payload)) in *.
  destruct (projections_dispatched w0 request continuation)
    as (D1 & _ & D3 & _).
  cbv zeta in D1.
  destruct (prelude_projections w w0 Hpre) as (_ & P2 & _).
  pose proof Hpre as (_ & _ & _ & Hp & _).
  eexists _, _, (truncate request 255).
  split; [exact Hrun |].
  split; [rewrite D1, Hp; reflexivity |].
  split; [rewrite D3, P2; reflexivity |].
  intros n response w2 Hn.
  unfold transport_respond, bind at 1, read. rewrite Hn.
  unfold bind at 1, modify. cbn [req_callback _prepare_callback continuation
                                 isUndefined].
  cbn [call arg nth].
  fold (call (VFun (CFlushOne (action_of k) (VObj o) callback))
             [response; truncate request 255]).
  destruct (flush_one_queue_continuation_spec (action_of k) (VObj o) callback
              response (truncate request 255)
              (set_pending (firstn n (pending w2) ++ skipn (S n) (pending w2))
                           w2) Hcb)
    as (w3 & Hcall & E & C).
  exists w3. split; [exact Hcall |]. split; assumption.
Qed.



(** *** The APPEND queue *)

Lemma flush_unfold (_set_callback _add_callback _append_callback
    _set_once_callback _union_callback _unset_callback : value) :
  _flush _set_callback _add_callback _append_callback _set_once_callback
         _union_callback _unset_callback
  = (_append_queue <- _get_queue APPEND_ACTION ;;
     flush_one FlushSet _set_callback ;;
     flush_one FlushSetOnce _set_once_callback ;;
     flush_one FlushUnset _unset_callback ;;
     flush_one FlushAdd _add_callback ;;
     flush_one FlushUnion _union_callback ;;
     flush_append_queue _append_queue _append_callback).
Proof. reflexivity. Qed.

(** A kind with no queue is passed over. *)
Lemma flush_one_absent (k : flushed) (callback : value) (w : world) :
  lookup (action_of k) (people_queue (persistence w)) = None ->
  flush_one k callback w = (Ok tt, w).
Proof.
  intros Hq.
  destruct k; cbn [flush_one action_of] in *;
    unfold _flush_one_queue, bind, _get_queue, read; rewrite Hq; reflexivity.
Qed.

Lemma append_identified (item callback : value) (w : world) :
  identify_called w = true ->
  let data :=
    encodeDates (composed w APPEND_ACTION (append_payload item callback)) in
  append item callback VUndefined w
  = (Ok (truncate data 255),
     dispatched w data (append_callback item callback)).
Proof.
  intros Hid data. unfold append, addOptOutCheckMixpanelPeople.
  unfold data, append_payload, append_callback.
  destruct (isObject item); now rewrite send_request_identified.
Qed.

Lemma pop_last (init : list value) (x : value) (w : world) :
  lookup APPEND_ACTION (people_queue (persistence w))
  = Some (VArr (init ++ [x])) ->
  pop w
  = (Ok x,
     set_persistence
       (set_queue APPEND_ACTION (VArr init) (persistence w)) w).
Proof.
  intros Hq. unfold pop, items_of_append_queue, bind, _get_queue, read, ret.
  rewrite Hq.
  destruct (init ++ [x]) as [| y l] eqn:E; [destruct init; discriminate |].
  rewrite <- E. unfold modify. now rewrite removelast_last, last_last.
Qed.

Lemma length_write (c : nat) (v : value) (cs : list value) :
  (c < length cs)%nat ->
  length (firstn c cs ++ v :: skipn (S c) cs) = length cs /\
  nth c (firstn c cs ++ v :: skipn (S c) cs) VUndefined = v.
Proof.
  intros Hc. split.
  - rewrite length_app, length_firstn. cbn [length]. rewrite length_skipn.
    lia.
  - rewrite app_nth2; rewrite length_firstn; [| lia].
    replace (c - Nat.min c (length cs))%nat with 0%nat by lia. reflexivity.
Qed.

(** The loop of [_flush] pops the queue from its last item to its first,
    sends one request for each, hands nothing to the store, and leaves in
    [$append_item] the first item of the queue. *)
Lemma flush_append_loop_spec (callback : value) (cell : nat)
    (items : list value) :
  forall w : world,
    identify_called w = true ->
    lookup APPEND_ACTION (people_queue (persistence w)) = Some (VArr items) ->
    (cell < length (cells w))%nat ->
    exists w',
      flush_append_loop (length items) cell callback w = (Ok tt, w') /\
      pending w' = pending w ++ map (append_request w callback) (rev items) /\
      lookup APPEND_ACTION (people_queue (persistence w'))
      = Some (VArr []) /\
      saves (trace w') = saves (trace w) /\
      enqueued (trace w') = enqueued (trace w) /\
      nth cell (cells w') VUndefined
      = hd (nth cell (cells w) VUndefined) items.
Proof.
  induction items as [| x init IH] using rev_ind; intros w Hid Hq Hc.
  - exists w. cbn. rewrite app_nil_r. repeat split. exact Hq.
  - rewrite length_app, Nat.add_1_r. cbn [flush_append_loop].
    unfold bind at 1. rewrite (pop_last init x w Hq).
    unfold bind at 1, write_cell, modify.
    unfold bind at 1. rewrite append_identified by exact Hid.
    cbv zeta.
    match goal with
    | |- context [flush_append_loop _ _ _ ?w0] => set (w3 := w0)
    end.
    destruct (length_write cell x (cells w) Hc) as (Hlen & Hnth).
    destruct (IH w3) as (w' & Hloop & Hp & Hq' & Hs & He & Hcell).
    + exact Hid.
    + cbn. apply lookup_obj_set_same.
    + change (cells w3)
        with (firstn cell (cells w) ++ x :: skipn (S cell) (cells w)).
      rewrite Hlen. exact Hc.
    + exists w'. split; [exact Hloop |].
      rewrite rev_app_distr. cbn [rev app map].
      split; [rewrite Hp; cbn; rewrite <- app_assoc; reflexivity |].
      split; [exact Hq' |].
      split; [rewrite Hs; unfold saves; cbn; rewrite !filter_app; cbn;
              rewrite !app_nil_r; reflexivity |].
      split; [rewrite He; unfold enqueued; cbn; rewrite !flat_map_app; cbn;
              rewrite !app_nil_r; reflexivity |].
      rewrite Hcell.
      change (cells w3)
        with (firstn cell (cells w) ++ x :: skipn (S cell) (cells w)).
      rewrite Hnth. destruct init; reflexivity.
Qed.

(** With identity resolved and nothing in the other queues, [_flush] sends
    the APPEND queue item by item, the last one first, saves once, after
    the last request, and hands nothing to the store. *)
Lemma flush_append_spec (items : list value) (_set_callback _add_callback
    _append_callback _set_once_callback _union_callback _unset_callback
    : value) (w : world) :
  identify_called w = true ->
  (forall k, lookup (action_of k) (people_queue (persistence w)) = None) ->
  lookup APPEND_ACTION (people_queue (persistence w)) = Some (VArr items) ->
  items <> [] ->
  let cell := length (cells w) in
  let callback := VFun (CFlushAppend cell _append_callback) in
  exists w0 w1,
    _flush _set_callback _add_callback _append_callback _set_once_callback
           _union_callback _unset_callback w
    = (Ok tt, w1) /\
    w1 = log Save w0 /\
    pending w0 = pending w ++ map (append_request w callback) (rev items) /\
    saves (trace w0) = saves (trace w) /\
    enqueued (trace w1) = enqueued (trace w) /\
    nth cell (cells w1) VUndefined = hd VUndefined items.
Proof.
  intros Hid Habs Hq Hne cell callback.
  rewrite flush_unfold. unfold bind at 1, _get_queue at 1, read at 1.
  rewrite Hq.
  do 5 (unfold bind at 1; rewrite flush_one_absent by apply Habs).
  unfold flush_append_queue, bind at 1, items_of_append_queue, bind at 1,
    _get_queue, read, ret at 1.
  rewrite Hq.
  replace (Nat.eqb (length items) 0) with false
    by (destruct items; [congruence | reflexivity]).
  cbn [isUndefined isArray negb andb].
  unfold bind at 1, new_cell. fold cell. fold callback.
  set (wc := set_cells (cells w ++ [VUndefined]) w).
  destruct (flush_append_loop_spec callback cell items wc)
    as (w0 & Hloop & Hp & _ & Hs & He & Hcell).
  - exact Hid.
  - exact Hq.
  - unfold wc, cell. cbn. rewrite length_app. cbn. lia.
  - exists w0, (log Save w0). unfold bind. rewrite Hloop.
    split; [reflexivity |]. split; [reflexivity |].
    split; [exact Hp |]. split; [exact Hs |].
    split.
    + rewrite trace_log. unfold enqueued in *. rewrite flat_map_app, He.
      cbn. now rewrite app_nil_r.
    + cbn [cells log]. rewrite Hcell. destruct items; [congruence |].
      reflexivity.
Qed.

(** Whichever of these requests the transport then reports as failed, what
    goes back to the store is the first item of the queue, the one popped
    last. *)
Lemma flush_append_failure_requeues_the_first_item (items : list value)
    (_append_callback : value) (n : nat) (w w1 : world) :
  Forall (fun item => isObject item = true) items ->
  callback_ok _append_callback ->
  let cell := length (cells w) in
  let callback := VFun (CFlushAppend cell _append_callback) in
  pending w1 = map (append_request w callback) (rev items) ->
  nth cell (cells w1) VUndefined = hd VUndefined items ->
  (n < length items)%nat ->
  exists w2,
    transport_respond n zero w1 = (Ok VUndefined, w2) /\
    enqueued (trace w2)
    = enqueued (trace w1) ++ [(APPEND_ACTION, hd VUndefined items)].
Proof.
  intros Hobj Hcb cell callback Hp Hcell Hn.
  assert (Hreq : exists item,
             nth_error (pending w1) n
             = Some (append_request w callback item) /\
             isObject item = true).
  { rewrite Hp. destruct (nth_error (rev items) n) as [item |] eqn:E.
    - exists item. split; [now apply map_nth_error |].
      apply nth_error_In, in_rev in E.
      rewrite Forall_forall in Hobj. now apply Hobj.
    - apply nth_error_None in E. rewrite length_rev in E. lia. }
  destruct Hreq as (item & Hreq & Hitem).
  unfold transport_respond, bind at 1, read. rewrite Hreq.
  unfold bind at 1, modify.
  unfold append_request, append_callback. rewrite Hitem.
  cbn [req_callback _prepare_callback callback isUndefined].
  unfold callback at 1. cbn [call arg nth].
  unfold flush_append_continuation.
  cbn [is_zero zero number_of_Z binary_normalize].
  unfold bind at 1, bind at 1, read_cell, read.
  cbn [cells set_pending]. rewrite Hcell.
  unfold _add_to_people_queue at 1, modify.
  unfold bind. rewrite call_callback_ok by assumption.
  eexists. split; [reflexivity |].
  match goal with
  | |- enqueued (trace (notified _ ?args ?wq)) = _ =>
      destruct (projections_notified _append_callback args wq Hcb)
        as (_ & _ & N3 & _)
  end.
  rewrite N3, trace_log. unfold enqueued. rewrite flat_map_app. reflexivity.
Qed.

(** *** The reserved property filter *)

Lemma lookup_unless_reserved (k : string) (o acc : object) :
  _is_reserved_property (VStr k) = true ->
  lookup k acc = None ->
  lookup k
    (fold_left (fun acc' e => unless_reserved (fst e) (snd e) acc')
               (map (fun kv : string * value => (snd kv, VStr (fst kv))) o)
               acc)
  = None.
Proof.
  intros Hk. revert acc. induction o as [| [k1 v1] o IH]; intros acc Hacc.
  - exact Hacc.
  - cbn [map fold_left fst snd]. apply IH.
    unfold unless_reserved.
    destruct (_is_reserved_property (VStr k1)) eqn:E; cbn [negb];
      [assumption |].
    cbn [ToPropertyKey]. rewrite lookup_obj_set_other; [assumption |].
    intros ->. congruence.
Qed.

(** A payload built from a map holds no reserved key. *)
Lemma map_payload_has_no_reserved_key (prop : value) (k : string) :
  isObject prop = true ->
  _is_reserved_property (VStr k) = true ->
  has_key k (each prop unless_reserved []) = false.
Proof.
  intros Hobj Hk. unfold has_key, each.
  replace (each_entries prop)
    with (map (fun kv : string * value => (snd kv, VStr (fst kv)))
              (own_properties prop))
    by (destruct prop; try discriminate Hobj; reflexivity).
  now rewrite lookup_unless_reserved.
Qed.

(** The names [unset] keeps, from a name or from a sequence of names, are
    not reserved. *)
Lemma unset_names_are_not_reserved (names acc : list value) :
  Forall (fun k => _is_reserved_property k = false) acc ->
  Forall (fun k => _is_reserved_property k = false)
    (fold_left
       (fun acc' (e : value * value) =>
          if negb (_is_reserved_property (fst e))
          then acc' ++ [fst e] else acc')
       (combine names (map index_number (seq 0 (length names)))) acc).
Proof.
  generalize (map index_number (seq 0 (length names))) as indices.
  revert acc. induction names as [| k names IH]; intros acc [| i indices] H;
    try exact H.
  cbn [combine fold_left fst]. apply IH.
  destruct (_is_reserved_property k) eqn:E; cbn [negb]; [assumption |].
  apply Forall_app. split; [assumption | now constructor].
Qed.

(** What the map-shaped branch of [increment] does: it keeps the entries
    whose value reads as a number, and reports one error for each of the
    others that is not under a reserved key. *)
Lemma increment_of_map (prop by_ callback : value) (w : world) :
  isObject prop = true ->
  increment prop by_ callback w
  = _send_request
      [(ADD_ACTION, VObj (increment_kept (each_entries prop) []))] by_
      (log_all (increment_reports (each_entries prop)) w).
Proof.
  intros Hobj. unfold increment, addOptOutCheckMixpanelPeople.
  rewrite Hobj. unfold bind at 1, bind at 1, each_M.
  rewrite increment_each. reflexivity.
Qed.

(** *** The encoders, shape by shape *)

Lemma unset_fold (names : list value) :
  forall (start : nat) (acc : list value),
    fold_left
      (fun acc' (e : value * value) =>
         if negb (_is_reserved_property (fst e))
         then acc' ++ [fst e] else acc')
      (combine names (map index_number (seq start (length names)))) acc
    = acc ++ filter unreserved names.
Proof.
  induction names as [| k names IH]; intros start acc.
  - cbn. now rewrite app_nil_r.
  - cbn [length seq map combine fold_left fst filter]. rewrite IH.
    unfold unreserved at 2.
    destruct (_is_reserved_property k); cbn [negb].
    + reflexivity.
    + now rewrite <- app_assoc.
Qed.

(** X1.  [unset] sends, under [$unset], the names it is given, a single
    name as a sequence of one, in the order given and with their repeats,
    less the reserved names. *)
Theorem unset_sends_the_unreserved_names (callback : value) :
  (forall names,
     unset (VArr names) callback
     = _send_request [(UNSET_ACTION, VArr (filter unreserved names))]
                     callback) /\
  (forall prop,
     isArray prop = false ->
     unset prop callback = unset (VArr [prop]) callback).
Proof.
  split.
  - intros names. unfold unset, each. cbn [isArray negb each_entries].
    now rewrite unset_fold.
  - intros prop H. unfold unset. rewrite H. reflexivity.
Qed.

Lemma filter_keys_incl (p : string * value -> bool) (o : object) (k : string) :
  In k (map fst (filter p o)) -> In k (map fst o).
Proof.
  induction o as [| kv o IH]; cbn; [auto |].
  destruct (p kv); cbn; tauto.
Qed.

Lemma each_unless_reserved (o : object) :
  forall acc : object,
    NoDup (map fst (acc ++ o)) ->
    fold_left (fun acc' e => unless_reserved (fst e) (snd e) acc')
              (map (fun kv : string * value => (snd kv, VStr (fst kv))) o)
              acc
    = acc ++ filter unreserved_entry o.
Proof.
  induction o as [| [k v] o IH]; intros acc Hnd.
  - cbn. now rewrite app_nil_r.
  - cbn [map fold_left fst snd filter].
    unfold unless_reserved at 2, unreserved_entry at 1, unreserved.
    cbn [fst ToPropertyKey].
    rewrite map_app in Hnd. cbn [map fst] in Hnd.
    pose proof (NoDup_remove_1 _ _ _ Hnd) as Hnd1.
    pose proof (NoDup_remove_2 _ _ _ Hnd) as Hk.
    destruct (_is_reserved_property (VStr k)); cbn [negb].
    + apply IH. now rewrite map_app.
    + rewrite obj_set_fresh
        by (intros Hin; apply Hk, in_or_app; now left).
      rewrite IH; [now rewrite <- app_assoc |].
      rewrite <- app_assoc, map_app. cbn [app map fst]. exact Hnd.
Qed.

(** The payload the map-shaped branches build from a map with distinct
    keys: its entries that are not under a reserved key, as they are. *)
Lemma map_payload_is_filtered (o : object) :
  NoDup (map fst o) ->
  each (VObj o) unless_reserved [] = filter unreserved_entry o.
Proof.
  intros Hnd. unfold each. cbn [each_entries own_properties].
  now rewrite each_unless_reserved.
Qed.

(** X2.  [set_once] and [append] with a map (of distinct keys) send its
    entries, values and order unchanged, less those under a reserved key;
    the second argument is the callback and the third is not looked at. *)
Theorem map_shaped_call_sends_the_unreserved_entries (o : object)
    (callback ignored : value) :
  NoDup (map fst o) ->
  set_once (VObj o) callback ignored
  = _send_request [(SET_ONCE_ACTION, VObj (filter unreserved_entry o))]
                  callback /\
  append (VObj o) callback ignored
  = _send_request [(APPEND_ACTION, VObj (filter unreserved_entry o))]
                  callback.
Proof.
  intros Hnd. unfold set_once, append, addOptOutCheckMixpanelPeople.
  cbn [isObject]. rewrite map_payload_is_filtered by assumption.
  split; reflexivity.
Qed.

Lemma all_arrays_set (o : object) (k : string) (v : value) :
  all_arrays o -> isArray v = true -> all_arrays (obj_set o k v).
Proof.
  unfold all_arrays. intros Ho Hv.
  induction o as [| [k' v'] o IH]; cbn.
  - now constructor.
  - inversion Ho as [| ? ? Hv' Ho']; subst.
    destruct (String.eqb k k'); constructor; auto.
Qed.

Lemma as_array_is_array (v : value) : isArray (as_array v) = true.
Proof. destruct v; reflexivity. Qed.

(** X3.  Whatever [union] is given, a name and a value or a map, every
    value of the payload it sends under [$union] is a sequence. *)
Theorem union_payload_holds_sequences (list_name values callback : value) :
  exists payload supplied,
    union list_name values callback
    = _send_request [(UNION_ACTION, VObj payload)] supplied /\
    all_arrays payload.
Proof.
  unfold union, addOptOutCheckMixpanelPeople.
  destruct (isObject list_name).
  - eexists _, _. split; [reflexivity |].
    unfold each. generalize (each_entries list_name) as entries.
    assert (H0 : all_arrays []) by constructor.
    revert H0. generalize (@nil (string * value)) as acc.
    intros acc Hacc entries. revert acc Hacc.
    induction entries as [| e entries IH]; intros acc Hacc; cbn; [assumption |].
    apply IH. destruct (_is_reserved_property (snd e)); cbn [negb];
      [assumption |].
    apply all_arrays_set; [assumption | apply as_array_is_array].
  - eexists _, _. split; [reflexivity |].
    apply all_arrays_set; [constructor | apply as_array_is_array].
Qed.

Lemma increment_kept_is_filtered (o : object) :
  forall acc : object,
    NoDup (map fst (acc ++ o)) ->
    increment_kept
      (map (fun kv : string * value => (snd kv, VStr (fst kv))) o) acc
    = acc ++ filter numeric_entry o.
Proof.
  unfold increment_kept.
  induction o as [| [k v] o IH]; intros acc Hnd.
  - cbn. now rewrite app_nil_r.
  - cbn [map filter fst snd].
    unfold increment_keeps at 1, numeric_entry at 1, unreserved_entry,
      unreserved.
    cbn [fst snd].
    rewrite map_app in Hnd. cbn [map fst] in Hnd.
    pose proof (NoDup_remove_1 _ _ _ Hnd) as Hnd1.
    pose proof (NoDup_remove_2 _ _ _ Hnd) as Hk.
    destruct (negb (_is_reserved_property (VStr k))
              && negb (isNaN (parseFloat v))).
    + cbn [fold_left fst snd ToPropertyKey].
      rewrite obj_set_fresh
        by (intros Hin; apply Hk, in_or_app; now left).
      rewrite IH; [now rewrite <- app_assoc |].
      rewrite <- app_assoc, map_app. cbn [app map fst]. exact Hnd.
    + apply IH. now rewrite map_app.
Qed.

Lemma increment_reports_of_map (o : object) :
  increment_reports
    (map (fun kv : string * value => (snd kv, VStr (fst kv))) o)
  = map (fun _ => increment_error) (filter rejected_entry o).
Proof.
  unfold increment_reports.
  induction o as [| [k v] o IH]; [reflexivity |].
  cbn [map filter]. unfold increment_rejects at 1, rejected_entry at 1,
    unreserved_entry, unreserved. cbn [fst snd].
  destruct (negb (_is_reserved_property (VStr k)) && isNaN (parseFloat v));
    cbn [map]; now rewrite IH.
Qed.

(** X4.  [increment] with a map (of distinct keys) reports one error for
    each entry whose value does not read as a number, unless its key is
    reserved, and then sends the entries whose value does, as they were
    given (a text that reads as a number stays a text), less those under a
    reserved key, which are dropped without a word. *)
Theorem increment_of_a_map_keeps_what_reads_as_a_number (o : object)
    (callback ignored : value) (w : world) :
  NoDup (map fst o) ->
  increment (VObj o) callback ignored w
  = _send_request [(ADD_ACTION, VObj (filter numeric_entry o))] callback
      (log_all (map (fun _ => increment_error) (filter rejected_entry o)) w).
Proof.
  intros Hnd. rewrite increment_of_map by reflexivity.
  cbn [each_entries own_properties].
  rewrite increment_kept_is_filtered by assumption.
  now rewrite increment_reports_of_map.
Qed.

(** *** [set] and its defaults *)

Lemma set_reduces (prop to callback : value) (w : world) :
  set prop to callback w
  = _send_request
      [(SET_ACTION,
        VObj (fold_left (fun acc kv => obj_set acc (fst kv) (snd kv))
                        (caller_properties prop to) (set_defaults w)))]
      (if isObject prop then to else callback) (referrer_saved w).
Proof.
  unfold set, addOptOutCheckMixpanelPeople, caller_properties, set_defaults,
    referrer_saved.
  destruct (isObject prop);
    unfold bind at 1, _get_config at 1, read at 1;
    destruct (save_referrer (get_config w)); reflexivity.
Qed.

Lemma obj_set_key_in (o : object) (k x : string) (v : value) :
  In x (map fst (obj_set o k v)) -> x = k \/ In x (map fst o).
Proof.
  induction o as [| [k' v'] o IH]; cbn.
  - intros [<- | []]. now left.
  - destruct (String.eqb k k'); cbn; intuition.
Qed.

Lemma obj_set_keys (o : object) (k : string) (v : value) :
  NoDup (map fst o) -> NoDup (map fst (obj_set o k v)).
Proof.
  induction o as [| [k' v'] o IH]; cbn; intros Hnd.
  - repeat constructor. auto.
  - inversion Hnd as [| ? ? Hout Hnd']; subst.
    destruct (String.eqb k k') eqn:E; cbn.
    + now constructor.
    + constructor; [| now apply IH].
      intros Hin. apply obj_set_key_in in Hin. destruct Hin as [-> | Hin].
      * now rewrite String.eqb_refl in E.
      * contradiction.
Qed.

Lemma caller_properties_keys (prop to : value) :
  NoDup (map fst (caller_properties prop to)).
Proof.
  unfold caller_properties. destruct (isObject prop).
  - unfold each. generalize (each_entries prop) as entries.
    assert (H0 : NoDup (map fst (@nil (string * value)))) by constructor.
    revert H0. generalize (@nil (string * value)) as acc.
    intros acc Hacc entries. revert acc Hacc.
    induction entries as [| e entries IH]; intros acc Hacc; cbn;
      [assumption |].
    apply IH. unfold unless_reserved.
    destruct (_is_reserved_property (snd e)); cbn [negb]; [assumption |].
    now apply obj_set_keys.
  - cbn. repeat constructor. auto.
Qed.

(** X5.  In the payload [set] sends under [$set], what the caller gave
    wins: a property of the caller has the caller's value, whatever the
    default people properties and the referrer info hold under the same
    name, and every other name has the value of these defaults. *)
Theorem set_lets_the_caller_win (prop to callback : value) (w : world) :
  exists payload,
    set prop to callback w
    = _send_request [(SET_ACTION, VObj payload)]
                    (if isObject prop then to else callback)
                    (referrer_saved w) /\
    (forall k v,
       lookup k (caller_properties prop to) = Some v ->
       lookup k payload = Some v) /\
    (forall k,
       lookup k (caller_properties prop to) = None ->
       lookup k payload = lookup k (set_defaults w)).
Proof.
  eexists. split; [apply set_reduces |]. split.
  - intros k v H. apply lookup_fold_present;
      [apply caller_properties_keys | assumption].
  - intros k H. now apply lookup_fold_absent.
Qed.

(** X6.  [clear_charges] sends a [$set] whose [$transactions] is the empty
    sequence, whatever the defaults hold, with the callback it was given. *)
Theorem clear_charges_empties_the_transactions (callback : value)
    (w : world) :
  exists payload,
    clear_charges callback w
    = _send_request [(SET_ACTION, VObj payload)] callback (referrer_saved w)
    /\
    lookup "$transactions" payload = Some (VArr []).
Proof.
  unfold clear_charges. rewrite set_reduces. cbn [isObject].
  eexists. split; [reflexivity |].
  apply lookup_fold_present; [apply caller_properties_keys | reflexivity].
Qed.

(** *** The dispatcher, at its edges *)


Lemma lookup_encodeDates (k : string) (o : object) :
  lookup k (map (fun kv : string * value =>
                   let (k', x) := kv in (k', encodeDates x)) o)
  = option_map encodeDates (lookup k o).
Proof.
  induction o as [| [k' v] o IH]; cbn; [reflexivity |].
  destruct (String.eqb k k'); [reflexivity | exact IH].
Qed.

(** X8.  The request [_send_request] sends carries the token of the
    configuration and the current distinct id under [$token] and
    [$distinct_id], over anything the data held under these names, and
    every other property of the data, its dates turned to text. *)
Theorem send_request_stamps_token_and_distinct_id (data : object)
    (callback : value) (w : world) :
  identify_called w = true ->
  exists request,
    _send_request data callback w
    = (Ok (truncate (VObj request) 255),
       dispatched w (VObj request) callback) /\
    lookup "$token" request = Some (VStr (token (get_config w))) /\
    lookup "$distinct_id" request = Some (VStr (distinct_id w)) /\
    forall k,
      k <> "$token" -> k <> "$distinct_id" ->
      lookup k request = option_map encodeDates (lookup k data).
Proof.
  intros Hid. rewrite send_request_identified by assumption.
  cbn [encodeDates]. eexists. split; [reflexivity |].
  rewrite !lookup_encodeDates. repeat split.
  - rewrite lookup_obj_set_other by discriminate.
    now rewrite lookup_obj_set_same.
  - now rewrite lookup_obj_set_same.
  - intros k H1 H2. rewrite lookup_encodeDates.
    now rewrite !lookup_obj_set_other by assumption.
Qed.

(** X9.  Before identity is resolved, a callback that is given but is not
    a function makes [_send_request] throw a [TypeError]; by then the entry
    has been handed to the store, and nothing else has happened. *)
Theorem callback_that_is_no_function_throws_after_queueing (kind : string)
    (payload callback : value) (w : world) :
  In kind kinds ->
  identify_called w = false ->
  not_callable callback = true ->
  _send_request [(kind, payload)] callback w
  = (Throw TypeError,
     queued w kind (encodeDates (composed w kind payload))).
Proof.
  intros Hk Hid Hcb.
  rewrite send_request_unidentified by assumption.
  unfold bind.
  destruct callback; try discriminate Hcb; cbn [isUndefined negb];
    unfold _get_config, read;
    match goal with
    | |- context [verbose (get_config ?x)] => destruct (verbose (get_config x))
    end; reflexivity.
Qed.

Lemma remove_last (A : Type) (l : list A) (x : A) :
  nth_error (l ++ [x]) (length l) = Some x /\
  firstn (length l) (l ++ [x]) ++ skipn (S (length l)) (l ++ [x]) = l.
Proof.
  split.
  - rewrite nth_error_app2 by lia. now rewrite Nat.sub_diag.
  - rewrite firstn_app, Nat.sub_diag, firstn_all. cbn [firstn].
    rewrite skipn_all2 by (rewrite length_app; cbn; lia).
    now rewrite !app_nil_r.
Qed.

(** X10.  With identity resolved, a mutation call does not call the
    callback of the caller itself and queues nothing; when the transport
    reports the outcome of its request, the callback is called once, with
    that outcome, unchanged, and with the truncated request the call had
    returned. *)
Theorem callback_hears_the_outcome_once (c : mutation) (id : nat)
    (w : world) :
  identify_called w = true ->
  supplied_callback c = VFun (CUser id) ->
  exists data w',
    run c w = (Ok data, w') /\
    calls (trace w') = calls (trace w) /\
    enqueued (trace w') = enqueued (trace w) /\
    forall response,
      exists w'',
        transport_respond (length (pending w)) response w'
        = (Ok VUndefined, w'') /\
        calls (trace w'') = calls (trace w) ++ [(id, [response; data])] /\
        enqueued (trace w'') = enqueued (trace w) /\
        pending w'' = pending w.
Proof.
  intros Hid Hcb.
  destruct (mutation_identified c w Hid) as (payload & w0 & Hpre & Hrun).
  cbv zeta in Hrun. rewrite Hcb in Hrun.
  set (request := encodeDates (composed w (action_kind c) payload)) in *.
  destruct (projections_dispatched w0 request (VFun (CUser id)))
    as (D1 & _ & D3 & D4 & _).
  cbv zeta in D1.
  destruct (prelude_projections w w0 Hpre) as (_ & P2 & P3).
  pose proof Hpre as (_ & _ & _ & Hp & _).
  eexists _, _. split; [exact Hrun |].
  split; [now rewrite D4, P3 |]. split; [now rewrite D3, P2 |].
  intros response.
  unfold transport_respond, bind at 1, read. rewrite D1, Hp.
  match goal with
  | |- context [pending w ++ [?r]] =>
      destruct (remove_last _ (pending w) r) as (Hn & Hrest)
  end.
  rewrite Hn, Hrest. unfold bind at 1, modify.
  cbn [req_callback _prepare_callback isUndefined call arg nth].
  unfold bind, modify, ret. eexists. split; [reflexivity |].
  unfold calls, enqueued in *. cbn [trace log set_pending pending].
  rewrite !flat_map_app. cbn [flat_map app].
  rewrite D4, D3, P3, P2, app_nil_r. repeat split.
Qed.

(** *** Flushing what is empty *)

Lemma flush_one_empty (k : flushed) (callback : value) (w : world) :
  own_properties (queue_of (action_of k) (persistence w)) = [] ->
  flush_one k callback w = (Ok tt, w).
Proof.
  unfold queue_of. intros Hq.
  destruct k; cbn [flush_one action_of] in *;
    unfold _flush_one_queue, bind, _get_queue, read, extend;
    cbn [fold_left]; rewrite Hq; reflexivity.
Qed.

(** X11.  [_flush_one_queue] passes over a queue that has no property of
    its own, be it absent, an empty map or anything else without one:
    nothing is taken out of the store, the action method is not called,
    nothing is sent. *)
Theorem flush_one_queue_passes_over_an_empty_queue (action : string)
    (action_method : value -> value -> M value) (callback : value)
    (queue_to_params_fn : option (value -> value)) (w : world) :
  own_properties (queue_of action (persistence w)) = [] ->
  _flush_one_queue action action_method callback queue_to_params_fn w
  = (Ok tt, w).
Proof.
  unfold queue_of. intros Hq.
  unfold _flush_one_queue, bind, _get_queue, read, extend.
  cbn [fold_left]. rewrite Hq. reflexivity.
Qed.

(** X12.  [_flush] with nothing queued, under any of the six Action
    Kinds, does nothing at all: no request, no removal, no save. *)
Theorem flush_of_nothing_does_nothing (_set_callback _add_callback
    _append_callback _set_once_callback _union_callback _unset_callback
    : value) (w : world) :
  (forall kind,
     In kind kinds ->
     own_properties (queue_of kind (persistence w)) = []) ->
  _flush _set_callback _add_callback _append_callback _set_once_callback
         _union_callback _unset_callback w
  = (Ok tt, w).
Proof.
  intros Hq. rewrite flush_unfold.
  assert (Hk : forall k,
             own_properties (queue_of (action_of k) (persistence w)) = []).
  { intros k. apply Hq. destruct k; cbn; auto 7. }
  unfold bind at 1, _get_queue at 1, read at 1.
  do 5 (unfold bind at 1; rewrite flush_one_empty by apply Hk).
  pose proof (Hq APPEND_ACTION) as Ha. unfold queue_of in Ha.
  unfold flush_append_queue, items_of_append_queue, bind, _get_queue, read,
    ret.
  destruct (lookup APPEND_ACTION (people_queue (persistence w)))
    as [[| | b | n | s | d | [| x l] | o | f] |];
    try reflexivity.
  cbn in Ha. specialize (Ha ltac:(auto 7)). discriminate Ha.
Qed.

(** *** Flushing the names to unset *)

Lemma encodeDates_names (o : object) :
  map encodeDates (names_of o) = names_of o.
Proof.
  unfold names_of. induction o as [| [k v] o IH]; [reflexivity |].
  cbn [map filter fst]. destruct (unreserved (VStr k)); cbn [map encodeDates];
    now rewrite IH.
Qed.

(** X13.  With identity resolved, the flush of the UNSET queue takes the
    queue out of the store and sends one request whose [$unset] is the
    sequence of the keys of the queue, in order, less the reserved ones. *)
Theorem flush_of_unset_sends_the_keys (callback : value) (o : object)
    (w : world) :
  identify_called w = true ->
  lookup UNSET_ACTION (people_queue (persistence w)) = Some (VObj o) ->
  o <> [] ->
  NoDup (map fst o) ->
  exists w1 prepared,
    flush_one FlushUnset callback w = (Ok tt, w1) /\
    pending w1
    = pending w
      ++ [mkRequest (engage_url w)
            (base64Encode
               (JSONEncode (composed w UNSET_ACTION (VArr (names_of o)))))
            prepared] /\
    persistence w1 = pop_policy host UNSET_ACTION (VObj o) (persistence w).
Proof.
  intros Hid Hq Hne Hnd.
  cbn [flush_one]. unfold _flush_one_queue, bind at 1, _get_queue, read.
  rewrite Hq, extend_copy by assumption.
  replace (isEmptyObject (VObj o)) with false
    by (destruct o; [congruence | reflexivity]).
  cbn [isUndefined isObject negb andb].
  unfold bind at 1, _pop_from_people_queue at 1, modify.
  unfold bind at 1, unset, each, keys.
  cbn [isObject isArray negb own_properties each_entries].
  rewrite unset_fold. cbn [app obj_set].
  rewrite send_request_identified by exact Hid.
  rewrite composed_kind by (cbn; auto 7).
  cbn [encodeDates map]. fold (names_of o). rewrite encodeDates_names.
  eexists _, _. split; [reflexivity |]. split; reflexivity.
Qed.

(** *** Nothing is sent before identity is resolved *)

Lemma offline_refl (w : world) : offline w w.
Proof. repeat split. Qed.

Lemma offline_trans (w1 w2 w3 : world) :
  offline w1 w2 -> offline w2 w3 -> offline w1 w3.
Proof.
  intros (A1 & A2 & A3) (B1 & B2 & B3). repeat split; congruence.
Qed.

Lemma offline_prelude (w w0 : world) : prelude w w0 -> offline w w0.
Proof.
  intros H. destruct (prelude_projections w w0 H) as (P1 & _).
  destruct H as (H1 & _ & _ & H4 & _). repeat split; assumption.
Qed.

Lemma offline_queued (w : world) (kind : string) (data : value) :
  offline w (queued w kind data).
Proof.
  destruct (projections_queued w kind data) as (Q1 & Q2 & _).
  repeat split; assumption.
Qed.

Lemma offline_notified (callback : value) (args : list value) (w : world) :
  callback_ok callback -> offline w (notified callback args w).
Proof.
  intros H. destruct (projections_notified callback args w H)
    as (N1 & N2 & _).
  repeat split; try assumption. destruct H as [-> | [id ->]]; reflexivity.
Qed.

(** A callback supplied by [_flush] takes the deferred result without a
    throw and without a request. *)
Lemma call_deferred_offline (f : value) (verbose_mode : bool) (w : world) :
  flush_callable f ->
  exists w',
    (if negb (isUndefined f)
     then call f [deferred verbose_mode]
     else ret VUndefined) w
    = (Ok VUndefined, w') /\
    offline w w'.
Proof.
  destruct (deferred_is_neither verbose_mode) as (Hz & _).
  intros [Hok | [(a & q & cb & -> & Hcb) | (cell & cb & -> & Hcb)]].
  - rewrite call_callback_ok by assumption. eexists. split; [reflexivity |].
    now apply offline_notified.
  - cbn [isUndefined negb call arg nth].
    unfold flush_one_queue_continuation, bind at 1. rewrite Hz.
    unfold ret at 1, bind. rewrite call_callback_ok by assumption.
    eexists. split; [reflexivity |]. now apply offline_notified.
  - cbn [isUndefined negb call arg nth].
    unfold flush_append_continuation, bind at 1. rewrite Hz.
    unfold ret at 1, bind. rewrite call_callback_ok by assumption.
    eexists. split; [reflexivity |]. now apply offline_notified.
Qed.

Lemma mutation_offline (c : mutation) (w : world) :
  identify_called w = false ->
  flush_callable (supplied_callback c) ->
  exists r w', run c w = (Ok r, w') /\ offline w w'.
Proof.
  intros Hid Hcb.
  destruct (run_reduces c w) as (payload & w0 & Hpre & Hrun).
  pose proof (offline_prelude w w0 Hpre) as O1.
  pose proof O1 as (Hi & _).
  rewrite Hrun.
  rewrite send_request_unidentified
    by (try apply action_kind_in; congruence).
  unfold bind.
  match goal with
  | |- context [queued w0 ?k ?d] =>
      destruct (call_deferred_offline (supplied_callback c)
                  (verbose (get_config w0)) (queued w0 k d) Hcb)
        as (w' & Hcall & O3);
      pose proof (offline_queued w0 k d) as O2
  end.
  rewrite Hcall. eexists _, w'. split; [reflexivity |].
  eapply offline_trans; [exact O1 |].
  eapply offline_trans; [exact O2 | exact O3].
Qed.

Lemma flush_one_offline (k : flushed) (callback : value) (w : world) :
  identify_called w = false ->
  callback_ok callback ->
  exists w', flush_one k callback w = (Ok tt, w') /\ offline w w'.
Proof.
  intros Hid Hcb.
  assert (Hstep : forall c wp,
             offline w wp ->
             flush_callable (supplied_callback c) ->
             exists w', (run c ;; ret tt) wp = (Ok tt, w') /\ offline w w').
  { intros c wp O1 Hc.
    destruct (mutation_offline c wp) as (r & w' & Hrun & O2);
      [destruct O1 as (Hi & _); congruence | assumption |].
    exists w'. split; [unfold bind; now rewrite Hrun |].
    eapply offline_trans; eassumption. }
  destruct k; cbn [flush_one];
    unfold _flush_one_queue, bind at 1, _get_queue, read;
    match goal with
    | |- context [extend [] [?q]] => set (queued_data := extend [] [q])
    end;
    cbn [isUndefined isObject negb andb];
    (destruct (isEmptyObject (VObj queued_data)); cbn [negb];
     [ exists w; split; [reflexivity | apply offline_refl] |]);
    unfold bind at 1, _pop_from_people_queue at 1, modify;
    match goal with
    | |- context [log (PopFromPeopleQueue ?a ?d) ?w0] =>
        assert (Op : offline w (log (PopFromPeopleQueue a d) w0))
          by (repeat split;
              rewrite trace_log; unfold transport_calls;
              rewrite flat_map_app; cbn; now rewrite app_nil_r)
    end.
  - apply (Hstep (CallSet (VObj queued_data) _ VUndefined) _ Op).
    right. left. eexists _, _, _. split; [reflexivity | assumption].
  - apply (Hstep (CallSetOnce (VObj queued_data) _ VUndefined) _ Op).
    right. left. eexists _, _, _. split; [reflexivity | assumption].
  - apply (Hstep (CallUnset (keys (VObj queued_data)) _) _ Op).
    right. left. eexists _, _, _. split; [reflexivity | assumption].
  - apply (Hstep (CallIncrement (VObj queued_data) _ VUndefined) _ Op).
    right. left. eexists _, _, _. split; [reflexivity | assumption].
  - apply (Hstep (CallUnion (VObj queued_data) _ VUndefined) _ Op).
    right. left. eexists _, _, _. split; [reflexivity | assumption].
Qed.

Lemma pop_offline (w : world) :
  exists item w', pop w = (Ok item, w') /\ offline w w'.
Proof.
  unfold pop, items_of_append_queue, bind, _get_queue, read, ret, modify.
  destruct (match
               match lookup APPEND_ACTION (people_queue (persistence w)) with
               | Some q => q
               | None => VUndefined
               end
             with
             | VArr items => items
             | _ => []
             end) as [| x l];
    eexists _, _; (split; [reflexivity | repeat split]).
Qed.

Lemma flush_append_loop_offline (cell : nat) (_append_callback : value)
    (count : nat) :
  callback_ok _append_callback ->
  forall (target : nat) (w : world),
    identify_called w = false ->
    exists w',
      flush_append_loop count target
        (VFun (CFlushAppend cell _append_callback)) w
      = (Ok tt, w') /\
      offline w w'.
Proof.
  intros Hcb. induction count as [| count IH]; intros target w Hid.
  - exists w. split; [reflexivity | apply offline_refl].
  - cbn [flush_append_loop]. unfold bind at 1.
    destruct (pop_offline w) as (item & w1 & Hpop & O1). rewrite Hpop.
    unfold bind at 1, write_cell, modify.
    set (w2 := set_cells _ w1).
    assert (O2 : offline w w2).
    { eapply offline_trans; [exact O1 | repeat split]. }
    unfold bind at 1.
    destruct (mutation_offline
                (CallAppend item (VFun (CFlushAppend cell _append_callback))
                            VUndefined) w2)
      as (r & w3 & Hrun & O3).
    + destruct O2 as (Hi & _). congruence.
    + cbn [supplied_callback]. destruct (isObject item).
      * right. right. eexists _, _. split; [reflexivity | assumption].
      * left. now left.
    + cbn [run] in Hrun. rewrite Hrun.
      destruct (IH target w3) as (w' & Hloop & O4).
      * destruct O2 as (Hi2 & _). destruct O3 as (Hi3 & _). congruence.
      * exists w'. split; [exact Hloop |].
        eapply offline_trans; [exact O2 |].
        eapply offline_trans; eassumption.
Qed.

(** X14.  [_flush] run before identity is resolved returns without a
    throw and sends nothing to the transport, whatever the six queues hold
    (the callbacks being absent or functions of the caller). *)
Theorem flush_before_identify_sends_nothing (_set_callback _add_callback
    _append_callback _set_once_callback _union_callback _unset_callback
    : value) (w : world) :
  identify_called w = false ->
  callback_ok _set_callback -> callback_ok _add_callback ->
  callback_ok _append_callback -> callback_ok _set_once_callback ->
  callback_ok _union_callback -> callback_ok _unset_callback ->
  exists w',
    _flush _set_callback _add_callback _append_callback _set_once_callback
           _union_callback _unset_callback w
    = (Ok tt, w') /\
    pending w' = pending w /\
    transport_calls (trace w') = transport_calls (trace w).
Proof.
  intros Hid H1 H2 H3 H4 H5 H6. rewrite flush_unfold.
  unfold bind at 1, _get_queue at 1, read at 1.
  set (_append_queue :=
         match lookup APPEND_ACTION (people_queue (persistence w)) with
         | Some q => q
         | None => VUndefined
         end).
  assert (Hnext : forall k callback wa,
             offline w wa -> callback_ok callback ->
             exists wb, flush_one k callback wa = (Ok tt, wb) /\
                        offline w wb).
  { intros k callback wa Oa Hcb.
    destruct (flush_one_offline k callback wa) as (wb & E & Ob);
      [destruct Oa as (Hi & _); congruence | assumption |].
    exists wb. split; [exact E | eapply offline_trans; eassumption]. }
  destruct (Hnext FlushSet _set_callback w (offline_refl w) H1)
    as (wa & Ea & Oa).
  unfold bind at 1. rewrite Ea.
  destruct (Hnext FlushSetOnce _set_once_callback wa Oa H4)
    as (wb & Eb & Ob).
  unfold bind at 1. rewrite Eb.
  destruct (Hnext FlushUnset _unset_callback wb Ob H6) as (wc & Ec & Oc).
  unfold bind at 1. rewrite Ec.
  destruct (Hnext FlushAdd _add_callback wc Oc H2) as (wd & Ed & Od).
  unfold bind at 1. rewrite Ed.
  destruct (Hnext FlushUnion _union_callback wd Od H5) as (we & Ee & Oe).
  unfold bind at 1. rewrite Ee.
  unfold flush_append_queue, bind at 1, items_of_append_queue, bind at 1,
    _get_queue, read, ret at 1.
  match goal with
  | |- context [if ?b then _ else _] => destruct b
  end.
  - unfold bind at 1, new_cell, bind.
    match goal with
    | |- context [flush_append_loop ?n ?t (VFun (CFlushAppend ?c ?cb)) ?w0] =>
        destruct (flush_append_loop_offline c cb n H3 t w0)
          as (wf & Ef & Of);
          [destruct Oe as (Hi & _); cbn; congruence |]
    end.
    rewrite Ef. unfold save, modify. eexists. split; [reflexivity |].
    destruct Oe as (_ & Pe & Te). destruct Of as (_ & Pf & Tf).
    cbn [pending log set_cells] in *. split; [congruence |].
    rewrite trace_log. unfold transport_calls in *.
    rewrite flat_map_app. cbn [flat_map app]. rewrite app_nil_r.
    cbn [trace set_cells] in Tf. congruence.
  - exists we. split; [reflexivity |].
    destruct Oe as (_ & Pe & Te). split; assumption.
Qed.

(** *** Each call and its payload *)

(** A mutation call is one call of [_send_request] with the payload of the
    call, under its Action Kind, and the callback it supplies. *)
Lemma run_exact (c : mutation) (w : world) :
  run c w
  = _send_request [(action_kind c, call_payload c w)] (supplied_callback c)
                  (call_prelude c w).
Proof.
  destruct c as [prop to cb | prop to cb | prop cb | prop to cb | prop to cb
                | prop to cb];
    cbn [run action_kind supplied_callback call_payload call_prelude].
  - apply set_reduces.
  - unfold set_once, addOptOutCheckMixpanelPeople, caller_properties.
    destruct (isObject prop); reflexivity.
  - unfold unset.
    replace (if negb (isArray prop) then VArr [prop] else prop)
      with (VArr (names_given prop)) by (destruct prop; reflexivity).
    unfold each. cbn [each_entries]. now rewrite unset_fold.
  - destruct (isObject prop) eqn:E.
    + now apply increment_of_map.
    + unfold increment, addOptOutCheckMixpanelPeople. rewrite E.
      reflexivity.
  - unfold append, addOptOutCheckMixpanelPeople, caller_properties.
    destruct (isObject prop); reflexivity.
  - unfold union, addOptOutCheckMixpanelPeople.
    destruct (isObject prop); reflexivity.
Qed.

Lemma prelude_call (c : mutation) (w : world) : prelude w (call_prelude c w).
Proof.
  destruct c as [prop to cb | prop to cb | prop cb | prop to cb | prop to cb
                | prop to cb]; cbn [call_prelude];
    try apply prelude_refl.
  - unfold referrer_saved. destruct (save_referrer (get_config w));
      [| apply prelude_refl].
    repeat split. exists [UpdateReferrerInfo (document_referrer w)].
    split; reflexivity.
  - destruct (isObject prop); [| apply prelude_refl].
    apply prelude_log_all, increment_reports_benign.
Qed.

(** A mutation call before identity is resolved, with its payload. *)
Lemma mutation_unidentified_exact (c : mutation) (w : world) :
  identify_called w = false ->
  callback_ok (supplied_callback c) ->
  let data := encodeDates (composed w (action_kind c) (call_payload c w)) in
  run c w
  = (Ok (truncate data 255),
     notified (supplied_callback c) [deferred (verbose (get_config w))]
              (queued (call_prelude c w) (action_kind c) data)).
Proof.
  intros Hid Hcb data.
  pose proof (prelude_call c w) as Hpre.
  pose proof Hpre as (Hi & Hc & _).
  rewrite run_exact.
  rewrite send_request_unidentified
    by (try apply action_kind_in; congruence).
  rewrite (composed_prelude w (call_prelude c w)) by assumption. fold data.
  unfold bind. rewrite call_callback_ok by assumption.
  replace (get_config (queued (call_prelude c w) (action_kind c) data))
    with (get_config (call_prelude c w)) by reflexivity.
  rewrite Hc. reflexivity.
Qed.

(** C1.  A mutation call ([set], [set_once], [unset], [increment], [append],
    [union]) made while identity is unresolved makes no transport call,
    hands the store one entry, under the Action Kind of the call, which
    holds the payload of the call, untruncated, under that Action Kind,
    calls the supplied callback, before it returns, with the deferred
    result, which is neither the network failure [0] nor the success [1],
    and returns the truncated copy of the entry. *)
Theorem mutation_before_identify_is_deferred (c : mutation) (w : world) :
  identify_called w = false ->
  callback_ok (supplied_callback c) ->
  let data := encodeDates (composed w (action_kind c) (call_payload c w)) in
  exists w',
    run c w = (Ok (truncate data 255), w') /\
    pending w' = pending w /\
    transport_calls (trace w') = transport_calls (trace w) /\
    enqueued (trace w') = enqueued (trace w) ++ [(action_kind c, data)] /\
    lookup (action_kind c) (own_properties data)
    = Some (encodeDates (call_payload c w)) /\
    has_key (action_kind c) (own_properties data) = true /\
    calls (trace w')
    = calls (trace w)
      ++ callback_calls (supplied_callback c)
                        [deferred (verbose (get_config w))] /\
    is_zero (deferred (verbose (get_config w))) = false /\
    deferred (verbose (get_config w)) <> one.
Proof.
  intros Hid Hcb data.
  pose proof (mutation_unidentified_exact c w Hid Hcb) as Hrun.
  cbv zeta in Hrun. fold data in Hrun.
  eexists. split; [exact Hrun |].
  destruct (projections_notified (supplied_callback c)
              [deferred (verbose (get_config w))]
              (queued (call_prelude c w) (action_kind c) data) Hcb)
    as (N1 & N2 & N3 & N4).
  destruct (projections_queued (call_prelude c w) (action_kind c) data)
    as (Q1 & Q2 & Q3 & Q4).
  pose proof (prelude_call c w) as Hpre.
  destruct (prelude_projections w (call_prelude c w) Hpre) as (P1 & P2 & P3).
  pose proof Hpre as (_ & _ & _ & Hp & _).
  destruct (deferred_is_neither (verbose (get_config w))) as (D1 & D2).
  rewrite N1, N2, N3, N4, Q1, Q2, Q3, Q4, P1, P2, P3, Hp.
  repeat split; try assumption;
    unfold data, has_key; cbn [composed encodeDates map own_properties lookup];
    now rewrite String.eqb_refl.
Qed.

(** *** The union encoding *)

Lemma each_union (o : object) :
  forall acc : object,
    NoDup (map fst (acc ++ o)) ->
    fold_left
      (fun acc' e =>
         if negb (_is_reserved_property (snd e))
         then obj_set acc' (ToPropertyKey (snd e)) (as_array (fst e))
         else acc')
      (map (fun kv : string * value => (snd kv, VStr (fst kv))) o) acc
    = acc ++ map encoded_entry (filter unreserved_entry o).
Proof.
  induction o as [| [k v] o IH]; intros acc Hnd.
  - cbn. now rewrite app_nil_r.
  - cbn [map fold_left fst snd filter].
    unfold unreserved_entry at 1, unreserved. cbn [fst ToPropertyKey].
    rewrite map_app in Hnd. cbn [map fst] in Hnd.
    pose proof (NoDup_remove_1 _ _ _ Hnd) as Hnd1.
    pose proof (NoDup_remove_2 _ _ _ Hnd) as Hk.
    destruct (_is_reserved_property (VStr k)); cbn [negb].
    + apply IH. now rewrite map_app.
    + rewrite obj_set_fresh
        by (intros Hin; apply Hk, in_or_app; now left).
      rewrite IH; [cbn [map]; now rewrite <- app_assoc |].
      rewrite <- app_assoc, map_app. cbn [app map fst]. exact Hnd.
Qed.

(** C8.  The union encoding turns a value that is not a sequence into the
    sequence of that one value and leaves a sequence as it is; encoding
    twice is encoding once.  [union] sends each value so encoded: the value
    given with a name, and the value of each entry of a map that is not
    under a reserved key; so a call on values already encoded sends what
    the call on the values themselves sends. *)
Theorem union_encoding_is_idempotent (v : value) :
  (isArray v = false -> as_array v = VArr [v]) /\
  (isArray v = true -> as_array v = v) /\
  as_array (as_array v) = as_array v /\
  (forall name callback,
     union (VStr name) (as_array v) callback = union (VStr name) v callback) /\
  (forall o callback,
     union (VObj (map (fun kv : string * value => (fst kv, as_array (snd kv)))
                      o))
           callback VUndefined
     = union (VObj o) callback VUndefined) /\
  (forall list_name callback,
     isObject list_name = false ->
     union list_name v callback
     = _send_request
         [(UNION_ACTION, VObj [(ToPropertyKey list_name, as_array v)])]
         callback) /\
  (forall o callback ignored,
     NoDup (map fst o) ->
     union (VObj o) callback ignored
     = _send_request
         [(UNION_ACTION,
           VObj (map encoded_entry (filter unreserved_entry o)))]
         callback).
Proof.
  split; [intros H; unfold as_array; now rewrite H |].
  split; [intros H; unfold as_array; now rewrite H |].
  split; [apply as_array_idempotent |].
  split.
  { intros name callback. unfold union, addOptOutCheckMixpanelPeople.
    cbn [isObject]. now rewrite as_array_idempotent. }
  split.
  { intros o callback. unfold union, addOptOutCheckMixpanelPeople.
    cbn [isObject]. unfold each. now rewrite union_map_encoded. }
  split.
  - intros list_name callback H. unfold union, addOptOutCheckMixpanelPeople.
    rewrite H. reflexivity.
  - intros o callback ignored Hnd.
    unfold union, addOptOutCheckMixpanelPeople. cbn [isObject].
    unfold each. cbn [each_entries own_properties].
    now rewrite each_union.
Qed.

(** *** Charges before identity is resolved *)

Lemma errors_after_queueing (callback : value) (args : list value)
    (w : world) (kind : string) (data : value) :
  callback_ok callback ->
  errors (trace (notified callback args (queued w kind data)))
  = errors (trace w).
Proof.
  intros [-> | [id ->]]; unfold notified, queued, errors;
    cbn [trace log set_persistence]; rewrite !flat_map_app; cbn;
    now rewrite !app_nil_r.
Qed.

Lemma referrer_saved_errors (w : world) :
  errors (trace (referrer_saved w)) = errors (trace w).
Proof.
  unfold referrer_saved. destruct (save_referrer (get_config w));
    [| reflexivity].
  rewrite trace_log. unfold errors. rewrite flat_map_app. cbn.
  now rewrite app_nil_r.
Qed.

(** X15.  Before identity is resolved, [track_charge] and [clear_charges]
    send nothing.  A charge whose amount is a number or reads as one is
    queued once, under [$append], as [$transactions] bound to the charge,
    and reports nothing; an amount that does not is reported once and not
    queued.  [clear_charges] is queued once, under [$set], with
    [$transactions] emptied over the defaults, and reports nothing. *)
Theorem charges_before_identify_are_queued (amount properties callback
    : value) (w : world) :
  identify_called w = false ->
  callback_ok callback ->
  (exists r w',
     track_charge amount properties callback w = (Ok r, w') /\
     pending w' = pending w /\
     transport_calls (trace w') = transport_calls (trace w) /\
     enqueued (trace w')
     = enqueued (trace w)
       ++ (if refused_amount amount then []
           else [(APPEND_ACTION,
                  encodeDates
                    (composed w APPEND_ACTION
                       (VObj [("$transactions",
                               charge (charged_amount amount)
                                      properties)])))]) /\
     errors (trace w')
     = errors (trace w)
       ++ (if refused_amount amount
           then [[VStr "Invalid value passed to mixpanel.people.track_charge - must be a number"]]
           else [])) /\
  (exists r w',
     clear_charges callback w = (Ok r, w') /\
     pending w' = pending w /\
     transport_calls (trace w') = transport_calls (trace w) /\
     enqueued (trace w')
     = enqueued (trace w)
       ++ [(SET_ACTION,
            encodeDates
              (composed w SET_ACTION
                 (VObj (fold_left
                          (fun acc kv => obj_set acc (fst kv) (snd kv))
                          [("$transactions", VArr [])] (set_defaults w)))))]
     /\
     errors (trace w') = errors (trace w)).
Proof.
  intros Hid Hcb.
  assert (Hcall : forall c,
             supplied_callback c = callback ->
             errors (trace (call_prelude c w)) = errors (trace w) ->
             exists r w',
               run c w = (Ok r, w') /\
               pending w' = pending w /\
               transport_calls (trace w') = transport_calls (trace w) /\
               enqueued (trace w')
               = enqueued (trace w)
                 ++ [(action_kind c,
                      encodeDates
                        (composed w (action_kind c) (call_payload c w)))] /\
               errors (trace w') = errors (trace w) ++ []).
  { intros c Hc He. rewrite <- Hc in Hcb.
    pose proof (mutation_unidentified_exact c w Hid Hcb) as Hrun.
    cbv zeta in Hrun. eexists _, _. split; [exact Hrun |].
    match goal with
    | |- context [notified ?cb ?args ?wq] =>
        destruct (projections_notified cb args wq Hcb)
          as (N1 & N2 & N3 & _)
    end.
    match goal with
    | |- context [queued ?w0 ?k ?d] =>
        destruct (projections_queued w0 k d) as (Q1 & Q2 & Q3 & _)
    end.
    pose proof (prelude_call c w) as Hpre.
    destruct (prelude_projections w _ Hpre) as (P1 & P2 & _).
    pose proof Hpre as (_ & _ & _ & Hp & _).
    rewrite errors_after_queueing by assumption.
    rewrite N1, N2, N3, Q1, Q2, Q3, P1, P2, Hp, He, app_nil_r.
    repeat split. }
  split.
  - unfold track_charge, addOptOutCheckMixpanelPeople, refused_amount,
      charged_amount.
    destruct (isNumber amount); cbn [negb andb].
    + apply (Hcall (CallAppend (VStr "$transactions") _ callback));
        reflexivity.
    + destruct (isNaN (parseFloat amount)).
      * unfold bind, console_error, modify, ret. eexists _, _.
        split; [reflexivity |]. rewrite trace_log.
        unfold transport_calls, enqueued, errors. rewrite !flat_map_app.
        cbn. rewrite !app_nil_r. repeat split.
      * apply (Hcall (CallAppend (VStr "$transactions") _ callback));
          reflexivity.
  - unfold clear_charges.
    destruct (Hcall (CallSet (VStr "$transactions") (VArr []) callback)
                eq_refl (referrer_saved_errors w))
      as (r & w' & H1 & H2 & H3 & H4 & H5).
    exists r, w'. rewrite app_nil_r in H5. repeat split; assumption.
Qed.

End Instance.

(** *** Instances *)

Lemma queued_entry_is_composed_request_witness :
  exists data payload,
    enqueued
      (trace (snd (run sample_host
                       (CallUnion (VStr "tag") (VStr "x") VUndefined)
                       (session false false []))))
    = [("$union", data)] /\
    lookup "$union" (own_properties data) = Some payload /\
    lookup "$token" (own_properties data) = Some (VStr "T0K3N") /\
    lookup "$distinct_id" (own_properties data) = Some (VStr "user-1").
Proof.
  apply (queued_entry_is_composed_request sample_host
           (CallUnion (VStr "tag") (VStr "x") VUndefined)
           (session false false [])).
  - reflexivity.
  - left. reflexivity.
Defined.

(** C2, where the code departs from it.  [set('bio', <256 units>)] with
    identity resolved: the code logs the truncated copy as the request and
    prepares the continuation with it, but hands the transport the encoding
    of the request with all 256 units, which is not the encoding of the
    truncated copy. *)
Lemma wire_request_is_not_truncated :
  let c := CallSet (VStr "bio") (VStr long_text) VUndefined in
  let request :=
    VObj [("$set", VObj [("$os", VStr "Linux"); ("bio", VStr long_text)]);
          ("$token", VStr "T0K3N"); ("$distinct_id", VStr "user-1")] in
  transport_calls (trace (snd (run sample_host c (session true false []))))
  = [("https://api.example/engage/", base64Encode (JSONEncode request),
      VNull)] /\
  base64Encode (JSONEncode request)
  <> base64Encode (JSONEncode (truncate request 255)).
Proof.
  split.
  - vm_compute. reflexivity.
  - vm_compute. intros H. discriminate H.
Qed.

Lemma delete_user_requires_identity_witness :
  (delete_user sample_host (session false false [])
   = (Ok VUndefined, log delete_user_error (session false false []))) /\
  (exists request w',
     delete_user sample_host (session true false []) = (Ok (truncate request 255), w') /\
     lookup "$delete" (own_properties request) = Some (VStr "user-1") /\
     transport_calls (trace w')
     = [("https://api.example/engage/", base64Encode (JSONEncode request),
         VNull)]).
Proof.
  split.
  - apply (delete_user_requires_identity sample_host
             (session false false [])).
    reflexivity.
  - destruct (proj2 (delete_user_requires_identity sample_host
                       (session true false []))
                eq_refl)
      as (request & w' & H1 & H2 & H3 & _).
    exists request, w'. repeat split; assumption.
Defined.

(** C10 as worded fails: [track_charge(50, {$amount: 5})] appends a charge
    whose [$amount] is 5, not [properties] with [$amount] bound to 50. *)
Lemma track_charge_amount_is_overridden :
  let properties := VObj [("$amount", five)] in
  let w := session true false [] in
  track_charge sample_host fifty properties VUndefined w
  = append sample_host (VStr "$transactions") (VObj [("$amount", five)])
           VUndefined w /\
  track_charge sample_host fifty properties VUndefined w
  <> append sample_host (VStr "$transactions")
            (charge_as_worded fifty properties) VUndefined w.
Proof.
  split.
  - vm_compute. reflexivity.
  - vm_compute. intros H. discriminate H.
Qed.

Lemma track_charge_appends_the_charge_witness :
  (track_charge sample_host (VStr "oops") (VObj []) VUndefined
                (session true false [])
   = (Ok VUndefined, log track_charge_error (session true false []))) /\
  (track_charge sample_host fifty (VObj [("sku", VStr "A1")]) VUndefined
                (session true false [])
   = append sample_host (VStr "$transactions")
            (charge fifty (VObj [("sku", VStr "A1")])) VUndefined
            (session true false [])) /\
  (track_charge sample_host (VStr "12.5 EUR") (VObj []) VUndefined
                (session true false [])
   = append sample_host (VStr "$transactions")
            (charge (VNum (parseFloat (VStr "12.5 EUR"))) (VObj []))
            VUndefined (session true false [])) /\
  lookup "$amount" (own_properties (charge fifty (VObj [("sku", VStr "A1")])))
  = Some fifty /\
  lookup "$amount" (own_properties (charge fifty (VObj [("$amount", five)])))
  = Some five.
Proof.
  destruct (track_charge_appends_the_charge sample_host (VStr "oops")
              (VObj []) VUndefined (session true false []))
    as (A1 & _).
  destruct (track_charge_appends_the_charge sample_host fifty
              (VObj [("sku", VStr "A1")]) VUndefined (session true false []))
    as (_ & B2 & _ & B4 & _).
  destruct (track_charge_appends_the_charge sample_host (VStr "12.5 EUR")
              (VObj []) VUndefined (session true false []))
    as (_ & _ & C3 & _).
  destruct (track_charge_appends_the_charge sample_host fifty
              (VObj [("$amount", five)]) VUndefined (session true false []))
    as (_ & _ & _ & _ & D5).
  split; [exact (A1 eq_refl eq_refl) |].
  split; [exact (B2 eq_refl) |].
  split; [exact (C3 eq_refl eq_refl) |].
  split; [exact (B4 eq_refl) |].
  apply D5; [| reflexivity].
  repeat constructor. simpl. tauto.
Defined.

Lemma flush_failure_requeues_what_was_read_witness :
  let o := [("gender", VBool true)] in
  let w := session true false [("$unset", VObj o)] in
  exists w1 request data,
    flush_one sample_host FlushUnset (VFun (CUser 2)) w = (Ok tt, w1) /\
    pending w1 = pending w ++ [request] /\
    enqueued (trace w1) = enqueued (trace w) /\
    forall n response w2,
      nth_error (pending w2) n = Some request ->
      exists w3,
        transport_respond sample_host n response w2 = (Ok VUndefined, w3) /\
        enqueued (trace w3)
        = enqueued (trace w2)
          ++ (if is_zero response then [("$unset", VObj o)] else []) /\
        calls (trace w3)
        = calls (trace w2)
          ++ callback_calls (VFun (CUser 2)) [response; data].
Proof.
  apply (flush_failure_requeues_what_was_read sample_host FlushUnset
           (VFun (CUser 2)) [("gender", VBool true)]
           (session true false [("$unset", VObj [("gender", VBool true)])])).
  - reflexivity.
  - reflexivity.
  - discriminate.
  - repeat constructor. simpl. tauto.
  - right. exists 2. reflexivity.
Defined.

(** The same flush, run: the keys go out, the failure brings the queue
    back as it was, and the callback of the kind hears of it. *)
Example flush_unset_then_failure :
  let w := session true false [("$unset", VObj [("gender", VBool true)])] in
  let run :=
    _flush sample_host VUndefined VUndefined VUndefined VUndefined VUndefined
           (VFun (CUser 2)) ;;
    transport_respond sample_host 0 zero in
  let unset_request :=
    VObj [("$unset", VArr [VStr "gender"]); ("$token", VStr "T0K3N");
          ("$distinct_id", VStr "user-1")] in
  fst (run w) = Ok VUndefined /\
  map fst (transport_calls (trace (snd (run w))))
  = [("https://api.example/engage/", base64Encode (JSONEncode unset_request))]
  /\
  enqueued (trace (snd (run w))) = [("$unset", VObj [("gender", VBool true)])]
  /\
  calls (trace (snd (run w))) = [(2, [zero; unset_request])].
Proof. vm_compute. repeat split. Qed.

(** C4, where the code departs from it.  Identity resolved, [{log: 'a'}]
    and [{log: 'b'}] in the APPEND queue: [_flush] pops and sends
    [{log: 'b'}], then [{log: 'a'}], empties the queue and saves once; when
    the transport then reports the failure of the first request, that of
    [{log: 'b'}], what is handed back to the store is [{log: 'a'}], the item
    popped last. *)
Theorem flush_append_requeues_the_item_popped_last :
  exists w1 w2,
    _flush sample_host VUndefined VUndefined VUndefined VUndefined VUndefined
           VUndefined append_session
    = (Ok tt, w1) /\
    map req_data (pending w1) = [log_request "b"; log_request "a"] /\
    queue_of "$append" (persistence w1) = VArr [] /\
    saves (trace w1) = 1 /\
    transport_respond sample_host 0 zero w1 = (Ok VUndefined, w2) /\
    map req_data (pending w2) = [log_request "a"] /\
    enqueued (trace w2) = [("$append", VObj [("log", VStr "a")])].
Proof.
  eexists _, _. split; [vm_compute; reflexivity |].
  split; [reflexivity |]. split; [reflexivity |]. split; [reflexivity |].
  split; [vm_compute; reflexivity |].
  split; reflexivity.
Qed.

(** C6, where the code departs from it.  [set('$token', 'x')] before
    identity is resolved: the name goes into the payload unchecked, and the
    entry handed to the store holds [$token] inside [$set]. *)
Theorem scalar_name_is_not_checked :
  let payload := VObj [("$os", VStr "Linux"); ("$token", VStr "x")] in
  enqueued
    (trace (snd (set sample_host (VStr "$token") (VStr "x") VUndefined
                     (session false false []))))
  = [("$set",
      VObj [("$set", payload); ("$token", VStr "T0K3N");
            ("$distinct_id", VStr "user-1")])] /\
  _is_reserved_property (VStr "$token") = true /\
  has_key "$token" (own_properties payload) = true.
Proof. vm_compute. repeat split. Qed.

(** C7, where the code departs from it.  [increment('x', 'oops')] with
    identity resolved: the value does not read as a number, no error is
    reported, and the request goes out with [x: 'oops'] in [$add]. *)
Theorem scalar_increment_is_not_checked :
  let w' :=
    snd (increment sample_host (VStr "x") (VStr "oops") VUndefined
                   (session true false [])) in
  isNaN (parseFloat (VStr "oops")) = true /\
  errors (trace w') = [] /\
  map req_data (pending w')
  = [base64Encode
       (JSONEncode
          (VObj [("$add", VObj [("x", VStr "oops")]);
                 ("$token", VStr "T0K3N"); ("$distinct_id", VStr "user-1")]))].
Proof. vm_compute. repeat split. Qed.

(** The example of the specification: [increment({a: 1, b: 'oops'})] keeps
    [a: 1], drops [b] and reports one error. *)
Example increment_drops_what_is_not_a_number :
  let w' :=
    snd (increment sample_host (VObj [("a", one); ("b", VStr "oops")])
                   VUndefined VUndefined (session true false [])) in
  length (errors (trace w')) = 1 /\
  map req_data (pending w')
  = [base64Encode
       (JSONEncode
          (VObj [("$add", VObj [("a", one)]);
                 ("$token", VStr "T0K3N"); ("$distinct_id", VStr "user-1")]))].
Proof. vm_compute. repeat split. Qed.

Lemma map_shaped_call_sends_the_unreserved_entries_witness :
  let o := [("plan", VStr "pro"); ("$token", VStr "x"); ("seats", five)] in
  set_once sample_host (VObj o) VUndefined VNull
  = _send_request sample_host
      [("$set_once", VObj [("plan", VStr "pro"); ("seats", five)])]
      VUndefined /\
  append sample_host (VObj o) VUndefined VNull
  = _send_request sample_host
      [("$append", VObj [("plan", VStr "pro"); ("seats", five)])]
      VUndefined.
Proof.
  apply (map_shaped_call_sends_the_unreserved_entries sample_host
           [("plan", VStr "pro"); ("$token", VStr "x"); ("seats", five)]
           VUndefined VNull).
  repeat constructor; cbn; intuition discriminate.
Defined.

Lemma increment_of_a_map_keeps_what_reads_as_a_number_witness :
  let o := [("a", VStr "2.5"); ("b", VStr "oops"); ("$token", VStr "x")] in
  increment sample_host (VObj o) VUndefined VNull (session true false [])
  = _send_request sample_host [("$add", VObj [("a", VStr "2.5")])] VUndefined
      (log increment_error (session true false [])).
Proof.
  apply (increment_of_a_map_keeps_what_reads_as_a_number sample_host
           [("a", VStr "2.5"); ("b", VStr "oops"); ("$token", VStr "x")]
           VUndefined VNull (session true false [])).
  repeat constructor; cbn; intuition discriminate.
Defined.

Lemma send_request_stamps_token_and_distinct_id_witness :
  exists request,
    _send_request sample_host
      [("$token", VStr "forged"); ("$delete", VStr "user-1")] VUndefined
      (session true false [])
    = (Ok (truncate (VObj request) 255),
       dispatched (session true false []) (VObj request) VUndefined) /\
    lookup "$token" request = Some (VStr "T0K3N") /\
    lookup "$distinct_id" request = Some (VStr "user-1") /\
    forall k,
      k <> "$token" -> k <> "$distinct_id" ->
      lookup k request
      = option_map encodeDates
          (lookup k [("$token", VStr "forged"); ("$delete", VStr "user-1")]).
Proof.
  apply (send_request_stamps_token_and_distinct_id sample_host
           [("$token", VStr "forged"); ("$delete", VStr "user-1")] VUndefined
           (session true false [])).
  reflexivity.
Defined.

Lemma callback_that_is_no_function_throws_after_queueing_witness :
  _send_request sample_host [("$set_once", VObj [("plan", VStr "pro")])]
                five (session false false [])
  = (Throw TypeError,
     queued sample_host (session false false []) "$set_once"
       (VObj [("$set_once", VObj [("plan", VStr "pro")]);
              ("$token", VStr "T0K3N"); ("$distinct_id", VStr "user-1")])).
Proof.
  apply (callback_that_is_no_function_throws_after_queueing sample_host
           "$set_once" (VObj [("plan", VStr "pro")]) five
           (session false false [])).
  - cbn. auto.
  - reflexivity.
  - reflexivity.
Defined.

Lemma callback_hears_the_outcome_once_witness :
  let c := CallUnset (VStr "gender") (VFun (CUser 4)) in
  let w := session true false [] in
  exists data w',
    run sample_host c w = (Ok data, w') /\
    calls (trace w') = [] /\
    enqueued (trace w') = [] /\
    forall response,
      exists w'',
        transport_respond sample_host 0 response w' = (Ok VUndefined, w'') /\
        calls (trace w'') = [(4, [response; data])] /\
        enqueued (trace w'') = [] /\
        pending w'' = [].
Proof.
  apply (callback_hears_the_outcome_once sample_host
           (CallUnset (VStr "gender") (VFun (CUser 4))) 4
           (session true false [])); reflexivity.
Defined.

Lemma flush_one_queue_passes_over_an_empty_queue_witness :
  _flush_one_queue sample_host "$set_once"
    (fun prop to => set_once sample_host prop to VUndefined)
    (VFun (CUser 1)) None
    (session true false [("$set_once", VObj []); ("$add", VObj [("n", one)])])
  = (Ok tt,
     session true false
       [("$set_once", VObj []); ("$add", VObj [("n", one)])]).
Proof.
  apply (flush_one_queue_passes_over_an_empty_queue sample_host "$set_once"
           (fun prop to => set_once sample_host prop to VUndefined)
           (VFun (CUser 1)) None
           (session true false
              [("$set_once", VObj []); ("$add", VObj [("n", one)])])).
  reflexivity.
Defined.

Lemma flush_of_nothing_does_nothing_witness :
  _flush sample_host VUndefined VUndefined VUndefined VUndefined VUndefined
         VUndefined
         (session true false [("$append", VArr []); ("$set", VObj [])])
  = (Ok tt, session true false [("$append", VArr []); ("$set", VObj [])]).
Proof.
  apply (flush_of_nothing_does_nothing sample_host VUndefined VUndefined
           VUndefined VUndefined VUndefined VUndefined
           (session true false [("$append", VArr []); ("$set", VObj [])])).
  intros kind Hk. cbn in Hk.
  repeat (destruct Hk as [<- | Hk]; [reflexivity |]). contradiction.
Defined.

Lemma flush_of_unset_sends_the_keys_witness :
  let o := [("gender", VBool true); ("$token", VBool true);
            ("Company", VBool true)] in
  let w := session true false [("$unset", VObj o)] in
  exists w1 prepared,
    flush_one sample_host FlushUnset VUndefined w = (Ok tt, w1) /\
    pending w1
    = [mkRequest "https://api.example/engage/"
         (base64Encode
            (JSONEncode
               (VObj [("$unset", VArr [VStr "gender"; VStr "Company"]);
                      ("$token", VStr "T0K3N");
                      ("$distinct_id", VStr "user-1")])))
         prepared] /\
    persistence w1 = sample_pop "$unset" (VObj o) (persistence w).
Proof.
  apply (flush_of_unset_sends_the_keys sample_host VUndefined
           [("gender", VBool true); ("$token", VBool true);
            ("Company", VBool true)]
           (session true false
              [("$unset",
                VObj [("gender", VBool true); ("$token", VBool true);
                      ("Company", VBool true)])])).
  - reflexivity.
  - reflexivity.
  - discriminate.
  - repeat constructor; cbn; intuition discriminate.
Defined.

Lemma flush_before_identify_sends_nothing_witness :
  let w :=
    session false false
      [("$set", VObj [("plan", VStr "pro")]);
       ("$append", VArr [VObj [("log", VStr "a")]; VObj [("log", VStr "b")]])]
  in
  exists w',
    _flush sample_host (VFun (CUser 1)) VUndefined (VFun (CUser 3))
           VUndefined VUndefined VUndefined w
    = (Ok tt, w') /\
    pending w' = [] /\
    transport_calls (trace w') = [].
Proof.
  apply (flush_before_identify_sends_nothing sample_host (VFun (CUser 1))
           VUndefined (VFun (CUser 3)) VUndefined VUndefined VUndefined
           (session false false
              [("$set", VObj [("plan", VStr "pro")]);
               ("$append",
                VArr [VObj [("log", VStr "a")]; VObj [("log", VStr "b")]])]));
    first [ reflexivity
          | now left
          | right; eexists; reflexivity ].
Defined.

Lemma mutation_before_identify_is_deferred_witness :
  let data :=
    VObj [("$set", VObj [("$os", VStr "Linux"); ("plan", VStr "pro")]);
          ("$token", VStr "T0K3N"); ("$distinct_id", VStr "user-1")] in
  exists w',
    run sample_host (CallSet (VStr "plan") (VStr "pro") (VFun (CUser 1)))
        (session false false [])
    = (Ok (truncate data 255), w') /\
    pending w' = [] /\
    transport_calls (trace w') = [] /\
    enqueued (trace w') = [("$set", data)] /\
    lookup "$set" (own_properties data)
    = Some (VObj [("$os", VStr "Linux"); ("plan", VStr "pro")]) /\
    has_key "$set" (own_properties data) = true /\
    calls (trace w') = [(1, [minus_one])] /\
    is_zero minus_one = false /\
    minus_one <> one.
Proof.
  apply (mutation_before_identify_is_deferred sample_host
           (CallSet (VStr "plan") (VStr "pro") (VFun (CUser 1)))
           (session false false [])).
  - reflexivity.
  - right. exists 1. reflexivity.
Defined.

Lemma union_encoding_is_idempotent_witness :
  as_array (VStr "x") = VArr [VStr "x"] /\
  as_array (VArr [VStr "x"]) = VArr [VStr "x"] /\
  union sample_host (VStr "tag") (VStr "x") VUndefined
  = _send_request sample_host [("$union", VObj [("tag", VArr [VStr "x"])])]
                  VUndefined /\
  union sample_host
        (VObj [("tag", VStr "x"); ("$token", VStr "t");
               ("seen", VArr [VStr "a"; VStr "b"])])
        VUndefined VNull
  = _send_request sample_host
      [("$union",
        VObj [("tag", VArr [VStr "x"]); ("seen", VArr [VStr "a"; VStr "b"])])]
      VUndefined.
Proof.
  split.
  { exact (proj1 (union_encoding_is_idempotent sample_host (VStr "x"))
                 eq_refl). }
  split.
  { exact (proj1 (proj2 (union_encoding_is_idempotent sample_host
                           (VArr [VStr "x"])))
                 eq_refl). }
  destruct (union_encoding_is_idempotent sample_host (VStr "x"))
    as (_ & _ & _ & _ & _ & Hscalar & Hmap).
  split.
  - exact (Hscalar (VStr "tag") VUndefined eq_refl).
  - apply (Hmap [("tag", VStr "x"); ("$token", VStr "t");
                 ("seen", VArr [VStr "a"; VStr "b"])] VUndefined VNull).
    repeat constructor; cbn; intuition discriminate.
Defined.

Lemma charges_before_identify_are_queued_witness :
  let w := session false false [] in
  (exists r w',
     track_charge sample_host (VStr "oops") (VObj []) (VFun (CUser 1)) w
     = (Ok r, w') /\
     pending w' = [] /\
     transport_calls (trace w') = [] /\
     enqueued (trace w') = [] /\
     errors (trace w')
     = [[VStr "Invalid value passed to mixpanel.people.track_charge - must be a number"]]) /\
  (exists r w',
     track_charge sample_host fifty (VObj [("sku", VStr "A1")])
                  (VFun (CUser 1)) w
     = (Ok r, w') /\
     pending w' = [] /\
     transport_calls (trace w') = [] /\
     enqueued (trace w')
     = [("$append",
         VObj [("$append",
                VObj [("$transactions",
                       VObj [("$amount", fifty); ("sku", VStr "A1")])]);
               ("$token", VStr "T0K3N"); ("$distinct_id", VStr "user-1")])] /\
     errors (trace w') = []) /\
  (exists r w',
     clear_charges sample_host (VFun (CUser 1)) w = (Ok r, w') /\
     pending w' = [] /\
     transport_calls (trace w') = [] /\
     enqueued (trace w')
     = [("$set",
         VObj [("$set",
                VObj [("$os", VStr "Linux"); ("$transactions", VArr [])]);
               ("$token", VStr "T0K3N"); ("$distinct_id", VStr "user-1")])] /\
     errors (trace w') = []).
Proof.
  split.
  { apply (charges_before_identify_are_queued sample_host (VStr "oops")
             (VObj []) (VFun (CUser 1)) (session false false []));
      [reflexivity | right; exists 1; reflexivity]. }
  apply (charges_before_identify_are_queued sample_host fifty
           (VObj [("sku", VStr "A1")]) (VFun (CUser 1))
           (session false false []));
    [reflexivity | right; exists 1; reflexivity].
Defined.

End People.
